(** * mpl_image_segmenter: the [ImageSegmenter] widget

    A shallow embedding of [src/mpl_image_segmenter/_segmenter.py] and the
    properties of its label mask, its overlay, its class registry and its
    mode state.

    The widget is a Python object whose methods mutate it and may raise.  A
    method is modelled as a function from the object's state to an outcome
    (a returned value or a raised exception) and the state at that moment:
    what a method wrote before it raised stays written, as in Python.

    What matplotlib and numpy supply is kept apart from the widget's logic:
    - the colour tables [TABLEAU_COLORS] and [XKCD_COLORS] and the
      point-in-polygon test [Path.contains_points] are taken from a
      [Toolkit] record;
    - figures, axes, the lasso selector, the pan manager and redraw
      requests only receive values and are represented by the values they
      are given; of their failures the model keeps the one that depends on
      the arguments, [imshow] refusing an overlay without cells, and takes
      a matplotlib whose selector and pan manager accept their arguments;
    - numbers that the widget only stores and copies (colour channels,
      vertex coordinates, the opacity) are rationals. *)

From Stdlib Require Import ZArith QArith.QArith_base String Ascii.
From stdpp Require Import base option list numbers strings gmap.

Local Open Scope Z_scope.

(** ** Python values, exceptions and outcomes *)

Inductive pyval : Type :=
  | PyNone
  | PyBool (b : bool)
  | PyInt (z : Z)
  | PyFloat (q : Q)
  | PyStr (s : string).

(** [isinstance(val, str)] *)
Definition isinstance_str (val : pyval) : bool :=
  match val with PyStr _ => true | _ => false end.

(** [isinstance(val, bool)] *)
Definition isinstance_bool (val : pyval) : bool :=
  match val with PyBool _ => true | _ => false end.

(** [isinstance(val, Integral)]: Python's [bool] is a subclass of [int],
    and both are registered as [numbers.Integral]. *)
Definition isinstance_Integral (val : pyval) : bool :=
  match val with PyBool _ | PyInt _ => true | _ => false end.

(** The number an [Integral] value stands for ([True] is 1, [False] is 0). *)
Definition int_value (val : pyval) : option Z :=
  match val with
  | PyBool b => Some (Z.b2z b)
  | PyInt z => Some z
  | _ => None
  end.

Inductive exn : Type :=
  ValueError | TypeError | IndexError | KeyError | OverflowError.

Inductive outcome (A : Type) : Type :=
  | Returned (a : A)
  | Raised (e : exn).
Arguments Returned {A} a.
Arguments Raised {A} e.

#[global] Instance outcome_ret : MRet outcome := λ A a, Returned a.
#[global] Instance outcome_bind : MBind outcome := λ A B f m,
  match m with
  | Returned a => f a
  | Raised e => Raised e
  end.

(** A method of an object with state [S]. *)
Definition method (S A : Type) : Type := S → outcome A * S.

#[global] Instance method_ret {S} : MRet (method S) := λ A a s, (Returned a, s).
#[global] Instance method_bind {S} : MBind (method S) := λ A B f m s,
  match m s with
  | (Returned a, s') => f a s'
  | (Raised e, s') => (Raised e, s')
  end.

Definition raise {S A} (e : exn) : method S A := λ s, (Raised e, s).
Definition read {S A} (f : S → A) : method S A := λ s, (Returned (f s), s).
Definition write {S} (f : S → S) : method S unit := λ s, (Returned tt, f s).
Definition lift {S A} (o : outcome A) : method S A := λ s, (o, s).

(** ** Sequences and arrays *)

(** [seq[k]] for a Python list or the first axis of a numpy array: negative
    indices count from the end, anything out of range raises [IndexError]. *)
Definition getitem {A} (l : list A) (k : Z) : outcome A :=
  let n := Z.of_nat (length l) in
  let k' := if k <? 0 then k + n else k in
  if (0 <=? k') && (k' <? n) then
    match l !! Z.to_nat k' with
    | Some x => Returned x
    | None => Raised IndexError
    end
  else Raised IndexError.

(** A two-dimensional numpy array: its shape and its cells in row-major
    order. *)
Record ndarray (A : Type) : Type := NDArray {
  shape : nat * nat;
  data : list A
}.
Arguments NDArray {A} shape data.
Arguments shape {A} n.
Arguments data {A} n.

Definition shape_size (sh : nat * nat) : nat := (sh.1 * sh.2)%nat.

(** A numpy array always holds as many cells as its shape says. *)
Definition ndarray_ok {A} (a : ndarray A) : Prop :=
  length (data a) = shape_size (shape a).

(** [np.zeros(shape)] *)
Definition np_zeros {A} (zero : A) (sh : nat * nat) : ndarray A :=
  NDArray sh (replicate (shape_size sh) zero).

(** [a == i], cell by cell *)
Definition np_equal (a : ndarray Z) (i : Z) : ndarray bool :=
  NDArray (shape a) ((λ v, v =? i) <$> data a).

(** [flat.reshape(shape)] *)
Definition reshape {A} (flat : list A) (sh : nat * nat) : outcome (ndarray A) :=
  if decide (length flat = shape_size sh) then Returned (NDArray sh flat)
  else Raised ValueError.

(** The cells of an array after [v] is written where [flags] is true. *)
Definition overwrite {A} (flags : list bool) (v : A) (cells : list A) : list A :=
  zip_with (λ (b : bool) x, if b then v else x) flags cells.

(** Whether numpy takes a boolean array of shape [idx] as an index into the
    leading axes of an array of shape [a]: each axis of the index must be as
    long as the axis it indexes, except that an axis of length 0 is not
    compared. *)
Definition boolean_index_fits (idx a : nat * nat) : bool :=
  ((idx.1 =? 0)%nat || (idx.1 =? a.1)%nat) &&
  ((idx.2 =? 0)%nat || (idx.2 =? a.2)%nat).

(** [a[idx] = v] for a boolean array [idx]: an index that does not fit
    raises [IndexError]; an index of the array's own shape overwrites the
    cells where it is true; any other index that fits has an axis of length
    0, so no cell at all, and selects nothing. *)
Definition setitem_where {A} (a : ndarray A) (idx : ndarray bool) (v : A)
  : outcome (ndarray A) :=
  if boolean_index_fits (shape idx) (shape a) then
    if decide (shape idx = shape a) then
      Returned (NDArray (shape a) (overwrite (data idx) v (data a)))
    else Returned a
  else Raised IndexError.

(** The element types of an integer-valued mask: numpy's signed and
    unsigned integers, and [float64], the type of [np.zeros]. *)
Inductive width : Type := W8 | W16 | W32 | W64.

Definition bits (w : width) : Z :=
  match w with W8 => 8 | W16 => 16 | W32 => 32 | W64 => 64 end.

Inductive dtype : Type :=
  | int_ (w : width)
  | uint (w : width)
  | float64.

(** The conversion of a Python [int] to an element of type [dt], which a
    store performs before it looks at the index: an integer type refuses a
    value outside its range with [OverflowError].  [float64] holds every
    integer up to 2^53 exactly, far more than a registry has classes; the
    rounding of larger integers is not modelled. *)
Definition cast (dt : dtype) (k : Z) : outcome Z :=
  match dt with
  | int_ w =>
      if (- 2 ^ (bits w - 1) <=? k) && (k <? 2 ^ (bits w - 1)) then Returned k
      else Raised OverflowError
  | uint w =>
      if (0 <=? k) && (k <? 2 ^ bits w) then Returned k
      else Raised OverflowError
  | float64 => Returned k
  end.

(** [a[idx] = k] for an array [a] of element type [dt] and a Python [int]. *)
Definition setitem_int (dt : dtype) (a : ndarray Z) (idx : ndarray bool) (k : Z)
  : outcome (ndarray Z) :=
  v ← cast dt k; setitem_where a idx v.

(** [a[r, c]] for indices within the shape. *)
Definition cell {A} (a : ndarray A) (r c : nat) : option A :=
  if decide (r < (shape a).1 ∧ c < (shape a).2)%nat
  then data a !! (r * (shape a).2 + c)%nat
  else None.

(** [np.arange(n)] *)
Definition np_arange (n : nat) : list Z := Z.of_nat <$> seq 0 n.

(** [np.meshgrid(xs, ys)]: two grids with one row per element of [ys]; the
    first repeats [xs] in every row, the second fills row [j] with [ys[j]]. *)
Definition np_meshgrid (xs ys : list Z) : list (list Z) * list (list Z) :=
  ((λ _, xs) <$> ys, (λ y, (λ _, y) <$> xs) <$> ys).

(** ** Colours, paths and the toolkit *)

Record rgba : Type := RGBA { red : Q; green : Q; blue : Q; alpha : Q }.

Definition transparent : rgba := RGBA 0 0 0 0.

(** [colors[:, -1] = a] on one row *)
Definition with_alpha (a : Q) (c : rgba) : rgba :=
  RGBA (red c) (green c) (blue c) a.

(** A [matplotlib.path.Path] *)
Record Path : Type := MkPath { vertices : list (Q * Q) }.

(** [Path(verts)]: the vertices must form an array of shape (N, 2), which
    an empty list does not. *)
Definition new_path (verts : list (Q * Q)) : outcome Path :=
  match verts with
  | [] => Raised ValueError
  | _ => Returned (MkPath verts)
  end.

(** [ax.imshow(a)] for an RGBA array: normalising the array takes its
    minimum, which numpy refuses for an array without cells. *)
Definition imshow_rgba {A} (a : ndarray A) : outcome unit :=
  if (shape_size (shape a) =? 0)%nat then Raised ValueError else Returned tt.

Record Toolkit : Type := {
  (** [to_rgba_array(list(TABLEAU_COLORS))] *)
  TABLEAU_COLORS : list rgba;
  (** [to_rgba_array(list(XKCD_COLORS))] *)
  XKCD_COLORS : list rgba;
  (** [p.contains_points([pt], radius=0)[0]] *)
  contains_points : Path → Z * Z → bool
}.

(** ** The widget *)

Inductive class_id : Type :=
  | IdInt (z : Z)
  | IdStr (s : string).

#[global] Instance class_id_eq_dec : EqDecision class_id.
Proof. solve_decision. Defined.

Record ImageSegmenter : Type := {
  mask_alpha : Q;
  _classes : list class_id;
  _n_classes : Z;
  mask_colors : list rgba;
  (** [self._img.shape[:2]] *)
  _img : nat * nat;
  mask : ndarray Z;
  (** [self.mask.dtype]: the mask is the caller's array, or [np.zeros] *)
  mask_dtype : dtype;
  _overlay : ndarray rgba;
  (** the button the lasso selector listens to *)
  lasso : Z;
  pix : list (Z * Z);
  (** the button of the pan manager *)
  _pm : Z;
  _cur_class_idx : Z;
  _erasing : bool;
  _paths : gmap string (list Path);
  (** [self.indices], set by the selection handler *)
  indices : option (ndarray bool)
}.

Definition set_mask (m : ndarray Z) (s : ImageSegmenter) : ImageSegmenter :=
  {| mask_alpha := mask_alpha s; _classes := _classes s;
     _n_classes := _n_classes s; mask_colors := mask_colors s;
     _img := _img s; mask := m; mask_dtype := mask_dtype s;
     _overlay := _overlay s; lasso := lasso s;
     pix := pix s; _pm := _pm s; _cur_class_idx := _cur_class_idx s;
     _erasing := _erasing s; _paths := _paths s; indices := indices s |}.

Definition set_overlay (o : ndarray rgba) (s : ImageSegmenter) : ImageSegmenter :=
  {| mask_alpha := mask_alpha s; _classes := _classes s;
     _n_classes := _n_classes s; mask_colors := mask_colors s;
     _img := _img s; mask := mask s; mask_dtype := mask_dtype s;
     _overlay := o; lasso := lasso s;
     pix := pix s; _pm := _pm s; _cur_class_idx := _cur_class_idx s;
     _erasing := _erasing s; _paths := _paths s; indices := indices s |}.

Definition set_cur_class_idx (k : Z) (s : ImageSegmenter) : ImageSegmenter :=
  {| mask_alpha := mask_alpha s; _classes := _classes s;
     _n_classes := _n_classes s; mask_colors := mask_colors s;
     _img := _img s; mask := mask s; mask_dtype := mask_dtype s;
     _overlay := _overlay s; lasso := lasso s;
     pix := pix s; _pm := _pm s; _cur_class_idx := k;
     _erasing := _erasing s; _paths := _paths s; indices := indices s |}.

Definition set_erasing (b : bool) (s : ImageSegmenter) : ImageSegmenter :=
  {| mask_alpha := mask_alpha s; _classes := _classes s;
     _n_classes := _n_classes s; mask_colors := mask_colors s;
     _img := _img s; mask := mask s; mask_dtype := mask_dtype s;
     _overlay := _overlay s; lasso := lasso s;
     pix := pix s; _pm := _pm s; _cur_class_idx := _cur_class_idx s;
     _erasing := b; _paths := _paths s; indices := indices s |}.

Definition set_paths (p : gmap string (list Path)) (s : ImageSegmenter)
  : ImageSegmenter :=
  {| mask_alpha := mask_alpha s; _classes := _classes s;
     _n_classes := _n_classes s; mask_colors := mask_colors s;
     _img := _img s; mask := mask s; mask_dtype := mask_dtype s;
     _overlay := _overlay s; lasso := lasso s;
     pix := pix s; _pm := _pm s; _cur_class_idx := _cur_class_idx s;
     _erasing := _erasing s; _paths := p; indices := indices s |}.

Definition set_indices (i : ndarray bool) (s : ImageSegmenter) : ImageSegmenter :=
  {| mask_alpha := mask_alpha s; _classes := _classes s;
     _n_classes := _n_classes s; mask_colors := mask_colors s;
     _img := _img s; mask := mask s; mask_dtype := mask_dtype s;
     _overlay := _overlay s; lasso := lasso s;
     pix := pix s; _pm := _pm s; _cur_class_idx := _cur_class_idx s;
     _erasing := _erasing s; _paths := _paths s; indices := Some i |}.

(** *** Properties *)

(** [erasing] getter *)
Definition erasing : method ImageSegmenter bool := read _erasing.

(** [erasing] setter *)
Definition erasing_set (val : pyval) : method ImageSegmenter unit :=
  match val with
  | PyBool b => write (set_erasing b)
  | _ => raise TypeError
  end.

(** [current_class] getter *)
Definition current_class : method ImageSegmenter class_id :=
  s ← read id;
  lift (getitem (_classes s) (_cur_class_idx s - 1)).

(** [self._classes.index(val)] *)
Definition index (val : class_id) (l : list class_id) : outcome Z :=
  match list_find (λ c, c = val) l with
  | Some (i, _) => Returned (Z.of_nat i)
  | None => Raised ValueError
  end.

(** [current_class] setter.  A string is looked up in the registry, an
    [Integral] is a 1-based index, and any other value falls through both
    tests. *)
Definition current_class_set (val : pyval) : method ImageSegmenter unit :=
  match val with
  | PyStr name =>
      s ← read id;
      if decide (IdStr name ∈ _classes s) then
        i ← lift (index (IdStr name) (_classes s));
        write (set_cur_class_idx (i + 1))
      else raise ValueError
  | PyBool _ | PyInt _ =>
      s ← read id;
      let v := default 0 (int_value val) in
      if (0 <? v) && (v <? _n_classes s + 1) then
        write (set_cur_class_idx v)
      else raise ValueError
  | _ => mret tt
  end.

(** [get_paths] *)
Definition get_paths : method ImageSegmenter (gmap string (list Path)) :=
  read _paths.

(** [self._paths[key].append(p)] *)
Definition paths_append (key : string) (p : Path) : method ImageSegmenter unit :=
  s ← read id;
  match _paths s !! key with
  | Some l => write (set_paths (<[key := l ++ [p]]> (_paths s)))
  | None => raise KeyError
  end.

(** *** The selection handler *)

Definition _onselect (tk : Toolkit) (verts : list (Q * Q))
  : method ImageSegmenter unit :=
  p ← lift (new_path verts);
  s ← read id;
  ind ← lift (reshape (contains_points tk p <$> pix s) (shape (mask s)));
  write (set_indices ind);;
  if _erasing s then
    m ← lift (setitem_int (mask_dtype s) (mask s) ind 0);
    write (set_mask m);;
    o ← lift (setitem_where (_overlay s) ind transparent);
    write (set_overlay o);;
    paths_append "erasing" p
  else
    m ← lift (setitem_int (mask_dtype s) (mask s) ind (_cur_class_idx s));
    write (set_mask m);;
    c ← lift (getitem (mask_colors s) (_cur_class_idx s - 1));
    o ← lift (setitem_where (_overlay s) ind c);
    write (set_overlay o);;
    paths_append "adding" p.

(** *** Construction *)

Inductive classes_arg : Type :=
  | ClassCount (n : Z)
  | ClassList (l : list class_id).

Inductive button_arg : Type :=
  | ButtonName (s : string)
  | ButtonNumber (z : Z).

(** The arguments of the constructor that the widget's own logic reads.
    [arg_img] is [np.asarray(img).shape[:2]]; [arg_mask], when given, is a
    two-dimensional array of integers and [arg_mask_dtype] its element
    type; [arg_mask_colors], when given, is
    [to_rgba_array(np.atleast_1d(mask_colors))]. *)
Record init_args : Type := {
  arg_img : nat * nat;
  arg_classes : classes_arg;
  arg_mask : option (ndarray Z);
  (** [mask.dtype] of the seed mask; not read when there is none *)
  arg_mask_dtype : dtype;
  arg_mask_colors : option (list rgba);
  arg_mask_alpha : Q;
  arg_lasso_mousebutton : button_arg;
  arg_pan_mousebutton : button_arg
}.

(** [range(n)] *)
Definition range (n : Z) : list Z := Z.of_nat <$> seq 0 (Z.to_nat n).

(** [s.lower()] on ASCII strings *)
Definition ascii_lower (a : ascii) : ascii :=
  let n := nat_of_ascii a in
  if ((65 <=? n) && (n <=? 90))%nat then ascii_of_nat (n + 32) else a.

Fixpoint lower (s : string) : string :=
  match s with
  | EmptyString => EmptyString
  | String a rest => String (ascii_lower a) (lower rest)
  end.

Definition button_dict : gmap string Z :=
  {[ "left"%string := 1; "middle"%string := 2; "right"%string := 3 ]}.

(** [if isinstance(b, str): b = button_dict[b.lower()]] *)
Definition resolve_button (b : button_arg) : outcome Z :=
  match b with
  | ButtonName s =>
      match button_dict !! lower s with
      | Some k => Returned k
      | None => Raised KeyError
      end
  | ButtonNumber z => Returned z
  end.

(** The body of the loop that fills the overlay from the mask, for the
    class index [i]: the cells where the mask holds [i] become transparent
    for the background and [mask_colors[i - 1]] otherwise. *)
Definition overlay_turn (colors : list rgba) (m : ndarray Z) (i : Z)
    (overlay : ndarray rgba) : outcome (ndarray rgba) :=
  let idx := np_equal m i in
  if i =? 0 then setitem_where overlay idx transparent
  else c ← getitem colors (i - 1); setitem_where overlay idx c.

(** The loop itself; [todo] is what is left of
    [range(self._n_classes + 1)]. *)
Fixpoint overlay_loop (colors : list rgba) (m : ndarray Z) (todo : list Z)
    (overlay : ndarray rgba) : outcome (ndarray rgba) :=
  match todo with
  | [] => Returned overlay
  | i :: rest =>
      overlay' ← overlay_turn colors m i overlay;
      overlay_loop colors m rest overlay'
  end.

(** [self.pix]: the [(x, y)] coordinates of every cell, row by row. *)
Definition pixel_grid (sh : nat * nat) : list (Z * Z) :=
  let pix_x := np_arange sh.1 in
  let pix_y := np_arange sh.2 in
  let '(xv, yv) := np_meshgrid pix_y pix_x in
  zip (mjoin xv) (mjoin yv).

(** [self._classes]: the identifiers [0 .. classes-1] for a count, the
    given list otherwise. *)
Definition registry (c : classes_arg) : list class_id :=
  match c with
  | ClassCount n => IdInt <$> range n
  | ClassList l => l
  end.

(** [self.mask_colors]: the first colours of a default table or the given
    colours, every alpha replaced by [mask_alpha]. *)
Definition palette (tk : Toolkit) (mask_colors : option (list rgba))
    (mask_alpha : Q) (n_classes : Z) : list rgba :=
  let colors :=
    match mask_colors with
    | None =>
        if n_classes <=? 10 then take (Z.to_nat n_classes) (TABLEAU_COLORS tk)
        else take (Z.to_nat n_classes) (XKCD_COLORS tk)
    | Some cs => cs
    end in
  with_alpha mask_alpha <$> colors.

(** [self.mask]: zeros of the image's shape, or the seed mask itself. *)
Definition initial_mask (a : init_args) : ndarray Z :=
  match arg_mask a with
  | None => np_zeros 0 (arg_img a)
  | Some m => m
  end.

(** [self.mask.dtype] *)
Definition initial_dtype (a : init_args) : dtype :=
  match arg_mask a with
  | None => float64
  | Some _ => arg_mask_dtype a
  end.

Definition __init__ (tk : Toolkit) (a : init_args) : outcome ImageSegmenter :=
  let classes := registry (arg_classes a) in
  let n_classes := Z.of_nat (length classes) in
  let colors := palette tk (arg_mask_colors a) (arg_mask_alpha a) n_classes in
  let img := arg_img a in
  let m := initial_mask a in
  overlay ← overlay_loop colors m (range (n_classes + 1)) (np_zeros transparent img);
  imshow_rgba overlay;;
  pan_mousebutton ← resolve_button (arg_pan_mousebutton a);
  lasso_mousebutton ← resolve_button (arg_lasso_mousebutton a);
  (* [_cur_class_idx], [_erasing] and [_paths] are not assigned yet when the
     setter of [current_class] runs; it reads none of them. *)
  let self :=
    {| mask_alpha := arg_mask_alpha a; _classes := classes;
       _n_classes := n_classes; mask_colors := colors; _img := img;
       mask := m; mask_dtype := initial_dtype a; _overlay := overlay;
       lasso := lasso_mousebutton;
       pix := pixel_grid img; _pm := pan_mousebutton; _cur_class_idx := 0;
       _erasing := false; _paths := ∅; indices := None |} in
  match current_class_set (PyInt 1) self with
  | (Returned _, self) =>
      Returned (set_paths {[ "adding"%string := []; "erasing"%string := [] ]}
                  (set_erasing false self))
  | (Raised e, _) => Raised e
  end.

(** *** Driving the widget *)

(** What a caller or the lasso selector can do to a constructed widget. *)
Inductive event : Type :=
  | SetErasing (val : pyval)
  | SetCurrentClass (val : pyval)
  | Select (verts : list (Q * Q)).

Definition handle (tk : Toolkit) (e : event) : method ImageSegmenter unit :=
  match e with
  | SetErasing val => erasing_set val
  | SetCurrentClass val => current_class_set val
  | Select verts => _onselect tk verts
  end.

(** The widget after a sequence of events; an event that raises leaves the
    widget as it was when the exception left the method. *)
Definition after (tk : Toolkit) (evs : list event) (s : ImageSegmenter)
  : ImageSegmenter :=
  foldl (λ s e, (handle tk e s).2) s evs.

(** ** Vocabulary of the properties *)

(** The colour-table entry of the 1-based class index [k]. *)
Definition color_table (s : ImageSegmenter) (k : Z) : option rgba :=
  mask_colors s !! Z.to_nat (k - 1).

(** The overlay as a function of a mask value: transparent for the
    background, the colour-table entry for a class index in [1, N]. *)
Definition overlay_of (s : ImageSegmenter) (k : Z) : option rgba :=
  if k =? 0 then Some transparent
  else if (1 <=? k) && (k <=? _n_classes s) then color_table s k
  else None.

Definition synchronized (s : ImageSegmenter) : Prop :=
  Forall2 (λ k o, overlay_of s k = Some o) (data (mask s)) (data (_overlay s)).

(** Every mask value is the background or a class index. *)
Definition labels_in_range (n : Z) (m : ndarray Z) : Prop :=
  Forall (λ k, 0 ≤ k ≤ n) (data m).

(** What the constructor leaves behind and every event keeps. *)
Record consistent (s : ImageSegmenter) : Prop := {
  mask_shape : shape (mask s) = _img s;
  mask_cells : ndarray_ok (mask s);
  overlay_shape : shape (_overlay s) = _img s;
  overlay_cells : ndarray_ok (_overlay s);
  pix_grid : pix s = pixel_grid (_img s);
  n_classes_len : _n_classes s = Z.of_nat (length (_classes s));
  cur_class_range : 1 ≤ _cur_class_idx s ≤ _n_classes s;
  colors_enough : _n_classes s ≤ Z.of_nat (length (mask_colors s));
  paths_adding : is_Some (_paths s !! "adding"%string);
  paths_erasing : is_Some (_paths s !! "erasing"%string)
}.

(** A seed mask is a numpy array. *)
Definition seed_ok (a : init_args) : Prop :=
  match arg_mask a with
  | Some m => ndarray_ok m
  | None => True
  end.

(** A seed mask holds only the background and class indices. *)
Definition seed_in_range (a : init_args) : Prop :=
  match arg_mask a with
  | Some m => labels_in_range (Z.of_nat (length (registry (arg_classes a)))) m
  | None => True
  end.

(** The Python value that names a class. *)
Definition to_pyval (c : class_id) : pyval :=
  match c with
  | IdInt z => PyInt z
  | IdStr name => PyStr name
  end.

(** A cell of the image's grid. *)
Definition in_grid (s : ImageSegmenter) (r c : nat) : Prop :=
  (r < (_img s).1)%nat ∧ (c < (_img s).2)%nat.

(** Whether the polygon of [verts] contains the cell in row [r], column
    [c]; without a vertex there is no polygon and nothing inside. *)
Definition inside (tk : Toolkit) (verts : list (Q * Q)) (r c : nat) : bool :=
  match new_path verts with
  | Returned p => contains_points tk p (Z.of_nat c, Z.of_nat r)
  | Raised _ => false
  end.

(** The current class index can be stored in the mask as it is. *)
Definition index_fits (s : ImageSegmenter) : Prop :=
  cast (mask_dtype s) (_cur_class_idx s) = Returned (_cur_class_idx s).

(** Every class index can be stored in the mask as it is. *)
Definition indices_fit (s : ImageSegmenter) : Prop :=
  ∀ k, 1 ≤ k ≤ _n_classes s → cast (mask_dtype s) k = Returned k.

(** The same for the arguments of the constructor. *)
Definition seed_holds_indices (a : init_args) : Prop :=
  ∀ k, 1 ≤ k ≤ Z.of_nat (length (registry (arg_classes a))) →
       cast (initial_dtype a) k = Returned k.

(** The containment flags of a gesture, one per pixel of [self.pix]. *)
Definition selection (tk : Toolkit) (verts : list (Q * Q)) (s : ImageSegmenter)
  : list bool :=
  contains_points tk (MkPath verts) <$> pix s.

(** The key of the history list of a mode. *)
Definition mode_key (erasing : bool) : string :=
  if erasing then "erasing"%string else "adding"%string.

(** ** A small instance *)

Definition Qltb (x y : Q) : bool := negb (Qle_bool y x).

(** A containment test for the instance: strictly inside the axis-aligned
    box spanned by the first two vertices. *)
Definition box_contains (p : Path) (pt : Z * Z) : bool :=
  match vertices p with
  | (x0, y0) :: (x1, y1) :: _ =>
      Qltb x0 (inject_Z pt.1) && Qltb (inject_Z pt.1) x1 &&
      Qltb y0 (inject_Z pt.2) && Qltb (inject_Z pt.2) y1
  | _ => false
  end.

Definition demo_toolkit : Toolkit :=
  {| TABLEAU_COLORS :=
       [RGBA (12 # 100) (47 # 100) (71 # 100) 1; RGBA 1 (50 # 100) (5 # 100) 1;
        RGBA (17 # 100) (63 # 100) (17 # 100) 1];
     XKCD_COLORS := [];
     contains_points := box_contains |}.

Definition demo_args (classes : classes_arg) (colors : option (list rgba))
  : init_args :=
  {| arg_img := (3, 3)%nat; arg_classes := classes; arg_mask := None;
     arg_mask_dtype := float64; arg_mask_colors := colors; arg_mask_alpha := 3 # 4;
     arg_lasso_mousebutton := ButtonName "left";
     arg_pan_mousebutton := ButtonName "Middle" |}.

(** A widget to fall back on where construction raised. *)
Definition blank : ImageSegmenter :=
  {| mask_alpha := 0; _classes := []; _n_classes := 0; mask_colors := [];
     _img := (0, 0)%nat; mask := np_zeros 0 (0, 0)%nat; mask_dtype := float64;
     _overlay := np_zeros transparent (0, 0)%nat; lasso := 0; pix := [];
     _pm := 0; _cur_class_idx := 0; _erasing := false; _paths := ∅;
     indices := None |}.

Definition constructed (o : outcome ImageSegmenter) : ImageSegmenter :=
  match o with
  | Returned s => s
  | Raised _ => blank
  end.

(** 3x3 image, two anonymous classes, default colours and mask. *)
Definition demo : ImageSegmenter :=
  constructed (__init__ demo_toolkit (demo_args (ClassCount 2) None)).

(** 3x3 image, classes ["cell"; "nucleus"]. *)
Definition demo_named : ImageSegmenter :=
  constructed (__init__ demo_toolkit
                 (demo_args (ClassList [IdStr "cell"; IdStr "nucleus"]) None)).

(** 3x3 image, two anonymous classes, a seed mask with both classes. *)
Definition seeded_args : init_args :=
  {| arg_img := (3, 3)%nat; arg_classes := ClassCount 2;
     arg_mask := Some (NDArray (3, 3)%nat [0; 1; 1; 0; 2; 2; 0; 0; 0]);
     arg_mask_dtype := int_ W64; arg_mask_colors := None; arg_mask_alpha := 3 # 4;
     arg_lasso_mousebutton := ButtonNumber 1;
     arg_pan_mousebutton := ButtonNumber 2 |}.

Definition demo_seeded : ImageSegmenter :=
  constructed (__init__ demo_toolkit seeded_args).

(** 3x3 image, two anonymous classes, three explicit colours. *)
Definition primaries : list rgba := [RGBA 1 0 0 1; RGBA 0 1 0 1; RGBA 0 0 1 1].

Definition primaries_args : init_args :=
  demo_args (ClassCount 2) (Some primaries).

(** Polygons of the instance: all nine cells, the centre cell, none, and
    the four cells of the top left corner. *)
Definition everything : list (Q * Q) :=
  [(-1 # 1, -1 # 1); (3 # 1, 3 # 1)]%Q.
Definition centre : list (Q * Q) :=
  [(1 # 2, 1 # 2); (3 # 2, 3 # 2)]%Q.
Definition outside : list (Q * Q) :=
  [(10 # 1, 10 # 1); (12 # 1, 12 # 1)]%Q.
Definition top_left : list (Q * Q) :=
  [(-1 # 1, -1 # 1); (3 # 2, 3 # 2)]%Q.

(** ** Vocabulary of the further properties *)

(** [panmanager] getter *)
Definition panmanager : method ImageSegmenter Z := read _pm.

(** A write to one of the two properties, as opposed to a gesture. *)
Definition is_write (e : event) : bool :=
  match e with
  | Select _ => false
  | _ => true
  end.

(** Two widgets that agree on the registry, the colour table, the grid and
    the mode state; their buffers and histories may differ. *)
Definition same_mode (s s' : ImageSegmenter) : Prop :=
  _classes s = _classes s' ∧ _n_classes s = _n_classes s' ∧
  mask_colors s = mask_colors s' ∧ _img s = _img s' ∧ pix s = pix s' ∧
  _cur_class_idx s = _cur_class_idx s' ∧ _erasing s = _erasing s'.

(** The gestures among [evs] that were completed while the erasing flag
    was [mode], oldest first; [flag] is the erasing flag before [evs].  Only
    a write of a [bool] changes the flag, and a gesture without a vertex
    makes no path. *)
Fixpoint gestures (mode flag : bool) (evs : list event) : list Path :=
  match evs with
  | [] => []
  | SetErasing (PyBool b) :: rest => gestures mode b rest
  | Select [] :: rest => gestures mode flag rest
  | Select verts :: rest =>
      (if bool_decide (flag = mode) then [MkPath verts] else [])
        ++ gestures mode flag rest
  | _ :: rest => gestures mode flag rest
  end.

(** The default colour table that the constructor draws from. *)
Definition default_table (tk : Toolkit) (n_classes : Z) : list rgba :=
  if n_classes <=? 10 then TABLEAU_COLORS tk else XKCD_COLORS tk.

(** Further instances: a seed mask of the wrong shape, no class at all, a
    mouse button that does not exist, more classes than default colours. *)
Definition misshapen_args : init_args :=
  {| arg_img := (3, 3)%nat; arg_classes := ClassCount 2;
     arg_mask := Some (NDArray (2, 2)%nat [0; 1; 1; 0]);
     arg_mask_dtype := int_ W64; arg_mask_colors := None; arg_mask_alpha := 3 # 4;
     arg_lasso_mousebutton := ButtonNumber 1;
     arg_pan_mousebutton := ButtonNumber 2 |}.

Definition classless_args : init_args := demo_args (ClassList []) None.

Definition fourth_button_args : init_args :=
  {| arg_img := (3, 3)%nat; arg_classes := ClassCount 2; arg_mask := None;
     arg_mask_dtype := float64; arg_mask_colors := None; arg_mask_alpha := 3 # 4;
     arg_lasso_mousebutton := ButtonName "left";
     arg_pan_mousebutton := ButtonName "fourth" |}.

Definition crowded_args : init_args := demo_args (ClassCount 4) None.

(** Classes ["nucleus"; "cell"; "cell"]: a name that occurs twice. *)
Definition demo_repeated : ImageSegmenter :=
  constructed (__init__ demo_toolkit
                 (demo_args (ClassList [IdStr "nucleus"; IdStr "cell"; IdStr "cell"])
                    None)).

(** 3x3 image, 130 classes with one colour each, a seed mask of [int8]
    zeros: the class indices above 127 do not fit the mask. *)
Definition int8_args : init_args :=
  {| arg_img := (3, 3)%nat; arg_classes := ClassCount 130;
     arg_mask := Some (NDArray (3, 3)%nat (replicate 9 0));
     arg_mask_dtype := int_ W8;
     arg_mask_colors := Some (replicate 130 (RGBA 1 0 0 1));
     arg_mask_alpha := 3 # 4;
     arg_lasso_mousebutton := ButtonNumber 1;
     arg_pan_mousebutton := ButtonNumber 2 |}.

Definition fresh_int8 : ImageSegmenter :=
  constructed (__init__ demo_toolkit int8_args).

(** That widget with its last class made current. *)
Definition demo_int8 : ImageSegmenter :=
  after demo_toolkit [SetCurrentClass (PyInt 130)] fresh_int8.

(** A session on the instance: two gestures drawn while adding, one while
    erasing, and writes in between, one of them invalid. *)
Definition session : list event :=
  [Select top_left; SetCurrentClass (PyInt 2); Select centre;
   SetErasing (PyInt 1); SetErasing (PyBool true); Select everything].

(** Ground goals about the instance are settled by evaluation. *)
Ltac evaluate :=
  first
    [ vm_compute; reflexivity
    | vm_compute; intros ?; discriminate
    | vm_compute; split; intros ?; discriminate
    | eexists; vm_compute; reflexivity
    | vm_compute; exact I ].

Ltac consistent_instance := split; evaluate.

Ltac each_cell_of w :=
  let r := fresh "r" in
  let c := fresh "c" in
  let Hr := fresh "Hr" in
  let Hc := fresh "Hc" in
  intros r c [Hr Hc];
  replace (_img w) with (3, 3)%nat in Hr, Hc by (vm_compute; reflexivity);
  simpl in Hr, Hc;
  destruct r as [|[|[|r]]]; try lia;
  destruct c as [|[|[|c]]]; try lia; vm_compute; reflexivity.

Ltac each_cell := each_cell_of demo.

(** ** Lists and arrays *)

Section arrays.
Context {A : Type}.
Implicit Types (flags : list bool) (cells : list A) (v x : A).

Lemma overwrite_length flags v cells :
  length flags = length cells → length (overwrite flags v cells) = length cells.
Proof. intros E. unfold overwrite. rewrite length_zip_with. lia. Qed.

Lemma overwrite_lookup flags v cells (i : nat) (b : bool) x :
  flags !! i = Some b → cells !! i = Some x →
  overwrite flags v cells !! i = Some (if b then v else x).
Proof.
  intros Hb Hx. unfold overwrite. rewrite lookup_zip_with, Hb, Hx. reflexivity.
Qed.

Lemma overwrite_none flags v cells :
  length flags = length cells → Forall (λ b, b = false) flags →
  overwrite flags v cells = cells.
Proof.
  revert cells. induction flags as [|b flags IH]; intros [|x cells] E F;
    simplify_eq/=; try reflexivity.
  inversion F; subst. f_equal. apply IH; assumption.
Qed.

Lemma overwrite_all flags v cells :
  length flags = length cells → Forall (λ b, b = true) flags →
  overwrite flags v cells = replicate (length cells) v.
Proof.
  revert cells. induction flags as [|b flags IH]; intros [|x cells] E F;
    simplify_eq/=; try reflexivity.
  inversion F; subst. f_equal. apply IH; assumption.
Qed.

Lemma getitem_lookup (l : list A) (k : Z) x :
  0 ≤ k → l !! Z.to_nat k = Some x → getitem l k = Returned x.
Proof.
  intros Hk Hx. unfold getitem.
  pose proof (lookup_lt_Some l _ _ Hx) as Hlt.
  destruct (Z.ltb_spec k 0) as [?|_]; [lia|].
  destruct (Z.leb_spec 0 k) as [_|?]; [|lia].
  destruct (Z.ltb_spec k (Z.of_nat (length l))) as [_|?]; [|lia].
  simpl. rewrite Hx. reflexivity.
Qed.

Lemma setitem_where_returns (a : ndarray A) (idx : ndarray bool) v :
  shape idx = shape a →
  setitem_where a idx v = Returned (NDArray (shape a) (overwrite (data idx) v (data a))).
Proof.
  intros E. unfold setitem_where, boolean_index_fits. rewrite E, !Nat.eqb_refl.
  rewrite !orb_true_r, decide_True; done.
Qed.

Lemma reshape_returns (flat : list A) sh :
  length flat = shape_size sh → reshape flat sh = Returned (NDArray sh flat).
Proof. intros E. unfold reshape. rewrite decide_True; done. Qed.

Lemma cell_lookup (a : ndarray A) r c :
  (r < (shape a).1)%nat → (c < (shape a).2)%nat →
  cell a r c = data a !! (r * (shape a).2 + c)%nat.
Proof. intros Hr Hc. unfold cell. rewrite decide_True; done. Qed.
End arrays.

Lemma cast_returned dt k v : cast dt k = Returned v → v = k.
Proof.
  destruct dt as [w|w|]; simpl; [destruct (_ && _)..|]; congruence.
Qed.

Lemma cast_raised dt k e : cast dt k = Raised e → e = OverflowError.
Proof.
  destruct dt as [w|w|]; simpl; [destruct (_ && _)..|]; congruence.
Qed.

(** Every element type holds 0, 1 and 2. *)
Lemma cast_small dt k : 0 ≤ k ≤ 2 → cast dt k = Returned k.
Proof.
  intros Hk. destruct dt as [w|w|]; simpl; [| |reflexivity].
  - destruct (Z.leb_spec (- 2 ^ (bits w - 1)) k) as [_|H];
      [|destruct w; simpl in H; lia].
    destruct (Z.ltb_spec k (2 ^ (bits w - 1))) as [_|H];
      [reflexivity|destruct w; simpl in H; lia].
  - destruct (Z.leb_spec 0 k) as [_|H]; [|lia].
    destruct (Z.ltb_spec k (2 ^ bits w)) as [_|H];
      [reflexivity|destruct w; simpl in H; lia].
Qed.

Lemma setitem_int_returns dt (a : ndarray Z) (idx : ndarray bool) k :
  cast dt k = Returned k → shape idx = shape a →
  setitem_int dt a idx k =
    Returned (NDArray (shape a) (overwrite (data idx) k (data a))).
Proof.
  intros Hk E. unfold setitem_int. rewrite Hk. simpl.
  apply setitem_where_returns, E.
Qed.

Lemma pixel_grid_length sh : length (pixel_grid sh) = shape_size sh.
Proof.
  destruct sh as [h w]. unfold pixel_grid, np_meshgrid, np_arange, shape_size.
  simpl. rewrite length_zip_with, !length_join, <- !list_fmap_compose.
  rewrite !(sum_list_fmap_same w).
  - rewrite !length_seq. lia.
  - apply Forall_forall. intros x _. simpl. rewrite !length_fmap, length_seq. done.
  - apply Forall_forall. intros x _. simpl. rewrite !length_fmap, length_seq. done.
Qed.

Lemma pixel_grid_lookup h w r c :
  (r < h)%nat → (c < w)%nat →
  pixel_grid (h, w) !! (r * w + c)%nat = Some (Z.of_nat c, Z.of_nat r).
Proof.
  intros Hr Hc. unfold pixel_grid, np_meshgrid, np_arange.
  cbv beta iota zeta delta [fst snd]. rewrite lookup_zip_with.
  assert (Hx : mjoin ((λ _ : Z, Z.of_nat <$> seq 0 w) <$> (Z.of_nat <$> seq 0 h))
               !! (r * w + c)%nat = Some (Z.of_nat c)).
  { apply (join_lookup_Some_same_length' w); [|done|].
    - apply Forall_fmap, Forall_forall. intros x _. simpl.
      rewrite length_fmap, length_seq. done.
    - exists (Z.of_nat <$> seq 0 w). split.
      + rewrite !list_lookup_fmap, lookup_seq_lt by done. done.
      + rewrite list_lookup_fmap, lookup_seq_lt by done. done. }
  assert (Hy : mjoin ((λ y : Z, (λ _ : Z, y) <$> (Z.of_nat <$> seq 0 w))
                        <$> (Z.of_nat <$> seq 0 h))
               !! (r * w + c)%nat = Some (Z.of_nat r)).
  { apply (join_lookup_Some_same_length' w); [|done|].
    - apply Forall_fmap, Forall_forall. intros x _. simpl.
      rewrite !length_fmap, length_seq. done.
    - exists ((λ _ : Z, Z.of_nat r) <$> (Z.of_nat <$> seq 0 w)). split.
      + rewrite !list_lookup_fmap, lookup_seq_lt by done. done.
      + rewrite !list_lookup_fmap, lookup_seq_lt by done. done. }
  rewrite Hx, Hy. reflexivity.
Qed.
(** ** The selection handler on a consistent widget *)

Lemma consistent_color s :
  consistent s → ∃ c, color_table s (_cur_class_idx s) = Some c.
Proof.
  intros [].
  destruct (lookup_lt_is_Some_2 (mask_colors s) (Z.to_nat (_cur_class_idx s - 1)))
    as [c Hc]; [lia|].
  exists c. exact Hc.
Qed.

Lemma selection_length tk verts s :
  consistent s → length (selection tk verts s) = shape_size (_img s).
Proof.
  intros []. unfold selection. rewrite length_fmap, pix_grid0.
  apply pixel_grid_length.
Qed.

Lemma new_path_returns verts : verts ≠ [] → new_path verts = Returned (MkPath verts).
Proof. destruct verts; [done|reflexivity]. Qed.

(** A gesture without a vertex raises before it touches the widget. *)
Lemma onselect_empty tk s : _onselect tk [] s = (Raised ValueError, s).
Proof. reflexivity. Qed.

Lemma onselect_run tk verts s :
  consistent s → verts ≠ [] → _erasing s = true ∨ index_fits s →
  ∃ c l,
    color_table s (_cur_class_idx s) = Some c ∧
    _paths s !! mode_key (_erasing s) = Some l ∧
    _onselect tk verts s =
      (Returned tt,
       set_paths (<[mode_key (_erasing s) := l ++ [MkPath verts]]> (_paths s))
         (set_overlay
            (NDArray (shape (_overlay s))
               (overwrite (selection tk verts s)
                  (if _erasing s then transparent else c) (data (_overlay s))))
            (set_mask
               (NDArray (shape (mask s))
                  (overwrite (selection tk verts s)
                     (if _erasing s then 0 else _cur_class_idx s) (data (mask s))))
               (set_indices (NDArray (shape (mask s)) (selection tk verts s)) s)))).
Proof.
  intros Hs Hverts Hfits. destruct (consistent_color s Hs) as [c Hc].
  pose proof (selection_length tk verts s Hs) as Hlen.
  destruct Hs.
  assert (∃ l, _paths s !! mode_key (_erasing s) = Some l) as [l Hl].
  { destruct (_erasing s); simpl; [apply paths_erasing0|apply paths_adding0]. }
  exists c, l. split; [exact Hc|]. split; [exact Hl|].
  unfold _onselect. rewrite (new_path_returns verts Hverts).
  unfold mbind, method_bind, read, lift, write. simpl.
  fold (selection tk verts s).
  rewrite reshape_returns by (rewrite mask_shape0; exact Hlen).
  destruct (_erasing s) eqn:Her.
  - rewrite setitem_int_returns by (first [apply cast_small; lia|reflexivity]).
    rewrite setitem_where_returns by (simpl; congruence).
    unfold paths_append, mbind, method_bind, read, write.
    simpl in *. rewrite Hl. reflexivity.
  - destruct Hfits as [?|Hfits]; [discriminate|].
    rewrite setitem_int_returns by (first [exact Hfits|reflexivity]).
    rewrite (getitem_lookup _ _ c) by (first [lia | exact Hc]).
    rewrite setitem_where_returns by (simpl; congruence).
    unfold paths_append, mbind, method_bind, read, write.
    simpl in *. rewrite Hl. reflexivity.
Qed.

(** A class index that the mask cannot hold: the gesture raises after it
    has set [indices] and before it writes anything else. *)
Lemma onselect_overflow tk verts s e :
  consistent s → verts ≠ [] → _erasing s = false →
  cast (mask_dtype s) (_cur_class_idx s) = Raised e →
  _onselect tk verts s =
    (Raised e, set_indices (NDArray (shape (mask s)) (selection tk verts s)) s).
Proof.
  intros Hs Hverts Her Hcast.
  pose proof (selection_length tk verts s Hs) as Hlen. destruct Hs.
  unfold _onselect. rewrite (new_path_returns verts Hverts).
  unfold mbind, method_bind, read, lift, write. simpl.
  fold (selection tk verts s).
  rewrite reshape_returns by (rewrite mask_shape0; exact Hlen).
  rewrite Her. unfold setitem_int. rewrite Hcast. reflexivity.
Qed.

(** The three ways a gesture can end on a consistent widget. *)
Lemma onselect_cases tk verts s :
  consistent s →
  (_onselect tk verts s).2 = s ∨
  (_onselect tk verts s).2 =
    set_indices (NDArray (shape (mask s)) (selection tk verts s)) s ∨
  (verts ≠ [] ∧ (_erasing s = true ∨ index_fits s)).
Proof.
  intros Hs. destruct verts as [|v verts]; [left; reflexivity|].
  destruct (_erasing s) eqn:Her; [right; right; auto|].
  destruct (cast (mask_dtype s) (_cur_class_idx s)) as [k|e] eqn:Hcast.
  - right; right. split; [done|]. right. unfold index_fits.
    rewrite Hcast. f_equal. eapply cast_returned, Hcast.
  - right; left. erewrite onselect_overflow by done. reflexivity.
Qed.

Lemma set_indices_consistent ind s : consistent s → consistent (set_indices ind s).
Proof. intros []. split; assumption. Qed.

Lemma onselect_consistent tk verts s :
  consistent s → consistent (_onselect tk verts s).2.
Proof.
  intros Hs.
  destruct (onselect_cases tk verts s Hs) as [->|[->|[Hverts Hfits]]];
    [exact Hs|apply set_indices_consistent, Hs|].
  destruct (onselect_run tk verts s Hs Hverts Hfits) as (c & l & _ & _ & ->).
  pose proof (selection_length tk verts s Hs) as Hlen.
  destruct Hs. split; simpl; try assumption.
  - unfold ndarray_ok in *. simpl. rewrite overwrite_length; congruence.
  - unfold ndarray_ok in *. simpl. rewrite overwrite_length; congruence.
  - destruct (_erasing s); simpl.
    + rewrite lookup_insert_ne by done. assumption.
    + rewrite lookup_insert_eq. eauto.
  - destruct (_erasing s); simpl.
    + rewrite lookup_insert_eq. eauto.
    + rewrite lookup_insert_ne by done. assumption.
Qed.
(** ** The property setters *)

Lemma erasing_set_bool b s :
  erasing_set (PyBool b) s = (Returned tt, set_erasing b s).
Proof. reflexivity. Qed.

Lemma current_class_set_int z s :
  current_class_set (PyInt z) s =
    if (0 <? z) && (z <? _n_classes s + 1)
    then (Returned tt, set_cur_class_idx z s)
    else (Raised ValueError, s).
Proof.
  unfold current_class_set, mbind, method_bind, read, write, raise. simpl.
  destruct ((0 <? z) && (z <? _n_classes s + 1)); reflexivity.
Qed.

Lemma index_member (l : list class_id) (x : class_id) :
  x ∈ l → ∃ i : nat, index x l = Returned (Z.of_nat i) ∧ l !! i = Some x.
Proof.
  intros Hx. unfold index.
  destruct (list_find (λ c, c = x) l) as [[j y]|] eqn:E.
  - apply list_find_Some in E as (Hj & -> & _). eauto.
  - apply list_find_None in E. rewrite Forall_forall in E.
    exfalso. eapply E; [exact Hx|reflexivity].
Qed.

Lemma current_class_set_str name s :
  current_class_set (PyStr name) s =
    if decide (IdStr name ∈ _classes s) then
      match index (IdStr name) (_classes s) with
      | Returned i => (Returned tt, set_cur_class_idx (i + 1) s)
      | Raised e => (Raised e, s)
      end
    else (Raised ValueError, s).
Proof.
  unfold current_class_set, mbind, method_bind, read, write, raise, lift. simpl.
  destruct (decide (IdStr name ∈ _classes s)); [|reflexivity].
  destruct (index (IdStr name) (_classes s)); reflexivity.
Qed.

Lemma set_cur_class_idx_consistent k s :
  consistent s → 1 ≤ k ≤ _n_classes s → consistent (set_cur_class_idx k s).
Proof. intros [] Hk. split; simpl; assumption. Qed.

Lemma current_class_set_consistent val s :
  consistent s → consistent (current_class_set val s).2.
Proof.
  intros Hs. destruct val as [|b|z|q|name]; try exact Hs.
  - unfold current_class_set, mbind, method_bind, read, write, raise.
    simpl. destruct ((0 <? Z.b2z b) && (Z.b2z b <? _n_classes s + 1)) eqn:E;
      simpl; [|exact Hs].
    apply set_cur_class_idx_consistent; [exact Hs|].
    apply andb_prop in E as [E1 E2]. lia.
  - rewrite current_class_set_int.
    destruct ((0 <? z) && (z <? _n_classes s + 1)) eqn:E; simpl; [|exact Hs].
    apply set_cur_class_idx_consistent; [exact Hs|].
    apply andb_prop in E as [E1 E2]. lia.
  - rewrite current_class_set_str.
    destruct (decide (IdStr name ∈ _classes s)) as [Hin|]; simpl; [|exact Hs].
    destruct (index_member _ _ Hin) as (i & -> & Hi). simpl.
    apply set_cur_class_idx_consistent; [exact Hs|].
    apply lookup_lt_Some in Hi. destruct Hs. lia.
Qed.

Lemma erasing_set_consistent val s :
  consistent s → consistent (erasing_set val s).2.
Proof.
  intros Hs. destruct val; try exact Hs. destruct Hs. split; assumption.
Qed.

Lemma handle_consistent tk e s :
  consistent s → consistent (handle tk e s).2.
Proof.
  destruct e; simpl.
  - apply erasing_set_consistent.
  - apply current_class_set_consistent.
  - apply onselect_consistent.
Qed.

Lemma after_consistent tk evs s :
  consistent s → consistent (after tk evs s).
Proof.
  revert s. induction evs as [|e evs IH]; intros s Hs; simpl; [exact Hs|].
  apply IH, handle_consistent, Hs.
Qed.

(** ** Construction *)

Lemma getitem_returned {A} (l : list A) (k : Z) (x : A) :
  0 ≤ k → getitem l k = Returned x → l !! Z.to_nat k = Some x.
Proof.
  intros Hk. unfold getitem.
  destruct (Z.ltb_spec k 0) as [?|_]; [lia|].
  destruct ((0 <=? k) && (k <? Z.of_nat (length l))); [|discriminate].
  destruct (l !! Z.to_nat k); [|discriminate].
  intros [= ->]. reflexivity.
Qed.

Lemma getitem_raised {A} (l : list A) (k : Z) (e : exn) :
  getitem l k = Raised e → e = IndexError.
Proof.
  unfold getitem.
  destruct (_ && _); [|congruence].
  destruct (l !! _); congruence.
Qed.

Lemma setitem_where_returned {A} (a a' : ndarray A) (idx : ndarray bool) (v : A) :
  setitem_where a idx v = Returned a' →
  boolean_index_fits (shape idx) (shape a) = true ∧
  a' = if decide (shape idx = shape a)
       then NDArray (shape a) (overwrite (data idx) v (data a))
       else a.
Proof.
  unfold setitem_where. destruct (boolean_index_fits _ _); [|discriminate].
  destruct (decide _); intros [= <-]; done.
Qed.

Lemma setitem_where_raised {A} (a : ndarray A) (idx : ndarray bool) (v : A) e :
  setitem_where a idx v = Raised e → e = IndexError.
Proof.
  unfold setitem_where. destruct (boolean_index_fits _ _); [|congruence].
  destruct (decide _); congruence.
Qed.

(** An index without a zero-length axis fits only an array of its shape. *)
Lemma boolean_index_fits_shape (idx a : nat * nat) :
  boolean_index_fits idx a = true → idx.1 ≠ 0%nat → idx.2 ≠ 0%nat → idx = a.
Proof.
  destruct idx as [h w], a as [h' w']. unfold boolean_index_fits. simpl.
  intros [H1 H2]%andb_prop Hh Hw.
  apply orb_prop in H1 as [H1|H1]; [apply Nat.eqb_eq in H1; done|].
  apply orb_prop in H2 as [H2|H2]; [apply Nat.eqb_eq in H2; done|].
  apply Nat.eqb_eq in H1, H2. congruence.
Qed.

(** A class index [i] written into the overlay: transparent for the
    background, the colour-table entry otherwise. *)
Lemma overlay_turn_returned colors m i o o1 :
  0 ≤ i → overlay_turn colors m i o = Returned o1 →
  boolean_index_fits (shape m) (shape o) = true ∧
  i ≤ Z.of_nat (length colors) ∧
  ∃ ci, (if i =? 0 then ci = transparent else colors !! Z.to_nat (i - 1) = Some ci) ∧
        o1 = if decide (shape m = shape o)
             then NDArray (shape o) (overwrite ((λ v, v =? i) <$> data m) ci (data o))
             else o.
Proof.
  intros Hi. unfold overlay_turn. destruct (Z.eqb_spec i 0) as [->|Hne].
  - intros [Hsh ->]%setitem_where_returned. split; [exact Hsh|].
    split; [lia|]. exists transparent. done.
  - destruct (getitem colors (i - 1)) as [c|e] eqn:Hc; [|discriminate].
    simpl. intros [Hsh ->]%setitem_where_returned.
    apply getitem_returned in Hc; [|lia].
    split; [exact Hsh|]. split.
    + apply lookup_lt_Some in Hc. lia.
    + exists c. done.
Qed.

Lemma overlay_turn_raised colors m i o e :
  overlay_turn colors m i o = Raised e → e = IndexError.
Proof.
  unfold overlay_turn. destruct (i =? 0).
  - apply setitem_where_raised.
  - destruct (getitem colors (i - 1)) as [c|e'] eqn:Hc; simpl.
    + apply setitem_where_raised.
    + intros [= <-]. eapply getitem_raised, Hc.
Qed.

Lemma overlay_loop_raised colors m todo o e :
  overlay_loop colors m todo o = Raised e → e = IndexError.
Proof.
  revert o. induction todo as [|i rest IH]; intros o; simpl; [discriminate|].
  destruct (overlay_turn colors m i o) as [o1|e'] eqn:E; simpl.
  - apply IH.
  - intros [= <-]. eapply overlay_turn_raised, E.
Qed.

Lemma overlay_loop_returned colors m todo o o' :
  Forall (λ i, 0 ≤ i) todo →
  overlay_loop colors m todo o = Returned o' →
  shape o' = shape o ∧
  (todo ≠ [] → boolean_index_fits (shape m) (shape o) = true) ∧
  Forall (λ i, i ≤ Z.of_nat (length colors)) todo ∧
  (length (data m) = length (data o) → length (data o') = length (data o)) ∧
  (shape m = shape o →
   ∀ (p : nat) v x, data m !! p = Some v → data o !! p = Some x →
    ∃ y, data o' !! p = Some y ∧
      if decide (v ∈ todo)
      then (if v =? 0 then y = transparent else colors !! Z.to_nat (v - 1) = Some y)
      else y = x).
Proof.
  revert o. induction todo as [|i rest IH]; intros o Hpos; simpl.
  - intros [= ->]. repeat split; try done.
    intros _ p v x _ Hx. exists x. split; [exact Hx|]. reflexivity.
  - inversion Hpos as [|? ? Hi Hrest]; subst.
    destruct (overlay_turn colors m i o) as [o1|e] eqn:E; [|discriminate]. simpl.
    intros Hloop.
    apply overlay_turn_returned in E as (Hfit & Hle & ci & Hci & ->); [|exact Hi].
    apply IH in Hloop as (Hsh' & _ & Hall & Hlen & Hcells); [|exact Hrest].
    destruct (decide (shape m = shape o)) as [Hsh|Hsh]; simpl in *.
    + repeat split; try done.
      * constructor; assumption.
      * intros L. rewrite Hlen; rewrite overwrite_length; rewrite ?length_fmap; done.
      * intros _ p v x Hv Hx.
        destruct (Hcells Hsh p v (if v =? i then ci else x)) as (y & Hy & Hcase).
        { exact Hv. }
        { erewrite overwrite_lookup; [reflexivity| |exact Hx].
          rewrite list_lookup_fmap, Hv. reflexivity. }
        exists y. split; [exact Hy|].
        destruct (decide (v ∈ rest)) as [Hin|Hnin].
        -- rewrite decide_True by (right; exact Hin). exact Hcase.
        -- subst y. destruct (Z.eqb_spec v i) as [->|Hne].
           ++ rewrite decide_True by left. exact Hci.
           ++ rewrite decide_False; [done|]. intros [?|?]%elem_of_cons; done.
    + repeat split; try done. constructor; assumption.
Qed.

Lemma overwrite_Forall {A} (P : A → Prop) flags v l :
  Forall P l → P v → Forall P (overwrite flags v l).
Proof.
  intros HF Hv. revert flags.
  induction HF as [|x l Hx HF IH]; intros [|[] flags]; simpl; constructor; auto.
Qed.

(** Whatever the loop writes is transparent or a colour of the table. *)
Lemma overlay_loop_Forall (P : rgba → Prop) colors m todo o o' :
  Forall (λ i, 0 ≤ i) todo →
  overlay_loop colors m todo o = Returned o' →
  P transparent → Forall P colors → Forall P (data o) → Forall P (data o').
Proof.
  intros Hpos Hloop Ht Hcolors. revert o Hpos Hloop.
  induction todo as [|i rest IH]; intros o Hpos; simpl.
  - intros [= ->]. done.
  - inversion Hpos as [|? ? Hi Hrest]; subst.
    destruct (overlay_turn colors m i o) as [o1|e] eqn:E; [|discriminate]. simpl.
    intros Hloop Ho. apply (IH o1 Hrest Hloop).
    apply overlay_turn_returned in E as (_ & _ & ci & Hci & ->); [|exact Hi].
    destruct (decide _); [|exact Ho]. simpl.
    apply overwrite_Forall; [exact Ho|].
    destruct (i =? 0); [by subst|].
    rewrite Forall_lookup in Hcolors. eapply Hcolors, Hci.
Qed.
Lemma overlay_loop_returns colors m todo o :
  shape m = shape o →
  Forall (λ i, 0 ≤ i ≤ Z.of_nat (length colors)) todo →
  ∃ o', overlay_loop colors m todo o = Returned o'.
Proof.
  revert o. induction todo as [|i rest IH]; intros o Hsh Hall; simpl; [eauto|].
  inversion Hall as [|? ? Hi Hrest]; subst.
  assert (∃ o1, overlay_turn colors m i o = Returned o1 ∧ shape o1 = shape o)
    as (o1 & -> & Hsh1).
  { unfold overlay_turn. destruct (Z.eqb_spec i 0) as [->|Hne].
    - rewrite setitem_where_returns by done. eauto.
    - destruct (lookup_lt_is_Some_2 colors (Z.to_nat (i - 1))) as [c Hc]; [lia|].
      rewrite (getitem_lookup _ _ c) by (first [lia|exact Hc]). simpl.
      rewrite setitem_where_returns by done. eauto. }
  simpl. apply IH; [congruence|exact Hrest].
Qed.

Lemma range_bounds n i : i ∈ range n ↔ 0 ≤ i < n.
Proof.
  unfold range. rewrite list_elem_of_fmap. split.
  - intros (k & -> & Hk). apply elem_of_seq in Hk. lia.
  - intros Hi. exists (Z.to_nat i). split; [lia|]. apply elem_of_seq. lia.
Qed.

Lemma registry_length c :
  Z.of_nat (length (registry c)) =
    match c with
    | ClassCount n => Z.max 0 n
    | ClassList l => Z.of_nat (length l)
    end.
Proof.
  destruct c as [n|l]; simpl; [|reflexivity].
  unfold range. rewrite !length_fmap, length_seq. lia.
Qed.

(** What a constructed widget looks like. *)
Lemma init_returned tk a s :
  __init__ tk a = Returned s →
  _classes s = registry (arg_classes a) ∧
  _n_classes s = Z.of_nat (length (registry (arg_classes a))) ∧
  1 ≤ _n_classes s ∧
  mask_colors s =
    palette tk (arg_mask_colors a) (arg_mask_alpha a) (_n_classes s) ∧
  _img s = arg_img a ∧
  mask s = initial_mask a ∧
  overlay_loop (mask_colors s) (mask s) (range (_n_classes s + 1))
    (np_zeros transparent (arg_img a)) = Returned (_overlay s) ∧
  pix s = pixel_grid (arg_img a) ∧
  _cur_class_idx s = 1 ∧
  _erasing s = false ∧
  _paths s = {[ "adding"%string := []; "erasing"%string := [] ]}.
Proof.
  unfold __init__.
  destruct (overlay_loop _ _ _ _) as [o|e] eqn:Ho; [|discriminate].
  cbn [mbind outcome_bind].
  destruct (imshow_rgba o) as [[]|e]; [|discriminate].
  cbn [mbind outcome_bind].
  destruct (resolve_button (arg_pan_mousebutton a)) as [pan|e]; [|discriminate].
  cbn [mbind outcome_bind].
  destruct (resolve_button (arg_lasso_mousebutton a)) as [las|e]; [|discriminate].
  cbn [mbind outcome_bind]. rewrite current_class_set_int. simpl.
  destruct (Z.ltb_spec 1 (Z.of_nat (length (registry (arg_classes a))) + 1))
    as [Hn|Hn]; [|discriminate].
  intros [= <-]. simpl. repeat split; try done. lia.
Qed.

(** The rest of what a constructed widget tells: the element type of its
    mask, and that its image has cells, [imshow] having accepted the
    overlay. *)
Lemma init_returned_more tk a s :
  __init__ tk a = Returned s →
  mask_dtype s = initial_dtype a ∧ shape_size (arg_img a) ≠ 0%nat.
Proof.
  unfold __init__.
  destruct (overlay_loop _ _ _ _) as [o|e] eqn:Ho; [|discriminate].
  cbn [mbind outcome_bind].
  apply overlay_loop_returned in Ho as (Hsh & _);
    [|apply Forall_forall; intros i Hi%range_bounds; lia].
  unfold imshow_rgba. rewrite Hsh. simpl shape.
  destruct (Nat.eqb_spec (shape_size (arg_img a)) 0) as [|Hne]; [discriminate|].
  cbn [mbind outcome_bind].
  destruct (resolve_button (arg_pan_mousebutton a)) as [pan|e]; [|discriminate].
  cbn [mbind outcome_bind].
  destruct (resolve_button (arg_lasso_mousebutton a)) as [las|e]; [|discriminate].
  cbn [mbind outcome_bind]. rewrite current_class_set_int. simpl.
  destruct (Z.ltb_spec 1 (Z.of_nat (length (registry (arg_classes a))) + 1))
    as [Hn|Hn]; [|discriminate].
  intros [= <-]. simpl. done.
Qed.

Lemma init_consistent tk a s :
  __init__ tk a = Returned s → seed_ok a → shape (initial_mask a) = arg_img a →
  consistent s.
Proof.
  intros Hinit Hseed Hshape.
  destruct (init_returned tk a s Hinit)
    as (Hcls & Hn & Hn1 & Hcol & Himg & Hm & Hloop & Hpix & Hidx & Her & Hpaths).
  assert (Hok : ndarray_ok (mask s)).
  { rewrite Hm. unfold initial_mask, seed_ok in *.
    destruct (arg_mask a) as [m|]; [exact Hseed|].
    unfold ndarray_ok, np_zeros. simpl. apply length_replicate. }
  apply overlay_loop_returned in Hloop as (Hsh & _ & Hall & Hlen & _).
  2:{ apply Forall_forall. intros i Hi%range_bounds. lia. }
  simpl in Hsh.
  assert (Hmsh : shape (mask s) = arg_img a) by congruence.
  split.
  - congruence.
  - exact Hok.
  - congruence.
  - unfold ndarray_ok in *. rewrite Hsh, Hlen; simpl; rewrite length_replicate;
      congruence.
  - congruence.
  - congruence.
  - lia.
  - rewrite Forall_forall in Hall. apply Hall, range_bounds. lia.
  - rewrite Hpaths. rewrite lookup_insert_eq. eauto.
  - rewrite Hpaths. rewrite lookup_insert_ne by done.
    rewrite lookup_singleton_eq. eauto.
Qed.

(** ** The overlay follows the mask *)

Lemma overwrite_Forall2 {A B} (P : A → B → Prop) flags v w l k :
  Forall2 P l k → P v w → Forall2 P (overwrite flags v l) (overwrite flags w k).
Proof.
  intros HF Hvw. revert flags.
  induction HF as [|x y l k Hxy HF IH]; intros [|[] flags]; simpl;
    constructor; auto.
Qed.

Lemma init_synchronized tk a s :
  __init__ tk a = Returned s → seed_ok a → shape (initial_mask a) = arg_img a →
  seed_in_range a → synchronized s.
Proof.
  intros Hinit Hseed Hshape Hrange.
  pose proof (init_consistent tk a s Hinit Hseed Hshape) as Hs.
  destruct (init_returned tk a s Hinit)
    as (Hcls & Hn & Hn1 & Hcol & Himg & Hm & Hloop & Hpix & Hidx & Her & Hpaths).
  assert (Hlab : labels_in_range (_n_classes s) (mask s)).
  { rewrite Hm, Hn. unfold initial_mask, seed_in_range in *.
    destruct (arg_mask a) as [m|]; [exact Hrange|].
    unfold labels_in_range, np_zeros. simpl. apply Forall_replicate. lia. }
  apply overlay_loop_returned in Hloop as (_ & _ & _ & _ & Hcells).
  2:{ apply Forall_forall. intros i Hi%range_bounds. lia. }
  specialize (Hcells ltac:(simpl; congruence)).
  destruct Hs. unfold synchronized.
  apply Forall2_same_length_lookup_2.
  { unfold ndarray_ok in *. congruence. }
  intros p v y Hv Hy.
  assert (Hx : data (np_zeros transparent (arg_img a)) !! p = Some transparent).
  { simpl. apply lookup_replicate_2. apply lookup_lt_Some in Hv.
    unfold ndarray_ok in *. rewrite <- Himg, <- mask_shape0. lia. }
  destruct (Hcells p v transparent Hv Hx) as (y' & Hy' & Hcase).
  assert (y' = y) as -> by congruence.
  unfold labels_in_range in Hlab. rewrite Forall_forall in Hlab.
  assert (Hvr : 0 ≤ v ≤ _n_classes s).
  { apply Hlab. eapply list_elem_of_lookup_2, Hv. }
  rewrite decide_True in Hcase by (apply range_bounds; lia).
  unfold overlay_of, color_table. destruct (Z.eqb_spec v 0) as [->|Hne].
  - congruence.
  - destruct (Z.leb_spec 1 v); [|lia].
    destruct (Z.leb_spec v (_n_classes s)); [|lia]. exact Hcase.
Qed.

Lemma onselect_synchronized tk verts s :
  consistent s → synchronized s → synchronized (_onselect tk verts s).2.
Proof.
  intros Hs Hsync.
  destruct (onselect_cases tk verts s Hs) as [->|[->|[Hverts Hfits]]];
    [exact Hsync..|].
  destruct (onselect_run tk verts s Hs Hverts Hfits) as (c & l & Hc & _ & ->).
  unfold synchronized, overlay_of, color_table in *. simpl.
  apply overwrite_Forall2; [exact Hsync|].
  destruct Hs. destruct (_erasing s); [reflexivity|].
  destruct (Z.eqb_spec (_cur_class_idx s) 0); [lia|].
  destruct (Z.leb_spec 1 (_cur_class_idx s)); [|lia].
  destruct (Z.leb_spec (_cur_class_idx s) (_n_classes s)); [|lia]. exact Hc.
Qed.

Lemma current_class_set_frame val s :
  ∃ k, (current_class_set val s).2 = set_cur_class_idx k s.
Proof.
  assert (Hid : s = set_cur_class_idx (_cur_class_idx s) s) by (destruct s; done).
  destruct val as [|b|z|q|name]; try (exists (_cur_class_idx s); exact Hid).
  - unfold current_class_set, mbind, method_bind, read, write, raise. simpl.
    destruct (_ && _); simpl; eauto.
  - rewrite current_class_set_int. destruct (_ && _); simpl; eauto.
  - rewrite current_class_set_str. destruct (decide _); simpl; eauto.
    destruct (index _ _); simpl; eauto.
Qed.

Lemma erasing_set_frame val s :
  ∃ b, (erasing_set val s).2 = set_erasing b s.
Proof.
  assert (Hid : s = set_erasing (_erasing s) s) by (destruct s; done).
  destruct val; simpl; eauto.
Qed.

Lemma handle_synchronized tk e s :
  consistent s → synchronized s → synchronized (handle tk e s).2.
Proof.
  intros Hs Hsync. destruct e as [val|val|verts]; simpl.
  - destruct (erasing_set_frame val s) as [b ->]. exact Hsync.
  - destruct (current_class_set_frame val s) as [k ->]. exact Hsync.
  - apply onselect_synchronized; assumption.
Qed.

Lemma after_synchronized tk evs s :
  consistent s → synchronized s → synchronized (after tk evs s).
Proof.
  revert s. induction evs as [|e evs IH]; intros s Hs Hsync; simpl; [exact Hsync|].
  apply IH; [apply handle_consistent|apply handle_synchronized]; assumption.
Qed.

(** Every widget that the constructor returns is consistent, and stays so
    whatever events follow. *)
Lemma constructed_consistent tk a s evs :
  __init__ tk a = Returned s → seed_ok a → shape (initial_mask a) = arg_img a →
  consistent (after tk evs s).
Proof.
  intros Hinit Hseed Hshape. apply after_consistent.
  eapply init_consistent; eassumption.
Qed.

(** ** The registry and the current class *)

Lemma onselect_registry tk verts s :
  _classes (_onselect tk verts s).2 = _classes s ∧
  _n_classes (_onselect tk verts s).2 = _n_classes s ∧
  _cur_class_idx (_onselect tk verts s).2 = _cur_class_idx s.
Proof.
  unfold _onselect, paths_append, mbind, method_bind, read, lift, write, raise.
  simpl. repeat case_match; simplify_eq/=; done.
Qed.

Lemma current_class_set_registry val s :
  _n_classes s = Z.of_nat (length (_classes s)) →
  1 ≤ _cur_class_idx s ≤ _n_classes s →
  _classes (current_class_set val s).2 = _classes s ∧
  _n_classes (current_class_set val s).2 = _n_classes s ∧
  1 ≤ _cur_class_idx (current_class_set val s).2 ≤ _n_classes s.
Proof.
  intros Hn Hidx. destruct val as [|b|z|q|name]; try done.
  - unfold current_class_set, mbind, method_bind, read, write, raise. simpl.
    destruct (_ && _) eqn:E; simpl; [|done].
    apply andb_prop in E as [E1 E2]. repeat split; lia.
  - rewrite current_class_set_int.
    destruct (_ && _) eqn:E; simpl; [|done].
    apply andb_prop in E as [E1 E2]. repeat split; lia.
  - rewrite current_class_set_str.
    destruct (decide (IdStr name ∈ _classes s)) as [Hin|]; simpl; [|done].
    destruct (index_member _ _ Hin) as (i & -> & Hi). simpl.
    apply lookup_lt_Some in Hi. repeat split; lia.
Qed.

Lemma handle_registry tk e s :
  _n_classes s = Z.of_nat (length (_classes s)) →
  1 ≤ _cur_class_idx s ≤ _n_classes s →
  _classes (handle tk e s).2 = _classes s ∧
  _n_classes (handle tk e s).2 = _n_classes s ∧
  1 ≤ _cur_class_idx (handle tk e s).2 ≤ _n_classes s.
Proof.
  intros Hn Hidx. destruct e as [val|val|verts]; simpl.
  - destruct (erasing_set_frame val s) as [b ->]. done.
  - apply current_class_set_registry; assumption.
  - destruct (onselect_registry tk verts s) as (-> & -> & ->). done.
Qed.

Lemma after_registry tk evs s :
  _n_classes s = Z.of_nat (length (_classes s)) →
  1 ≤ _cur_class_idx s ≤ _n_classes s →
  _classes (after tk evs s) = _classes s ∧
  _n_classes (after tk evs s) = _n_classes s ∧
  1 ≤ _cur_class_idx (after tk evs s) ≤ _n_classes s.
Proof.
  revert s. induction evs as [|e evs IH]; intros s Hn Hidx; simpl; [done|].
  destruct (handle_registry tk e s Hn Hidx) as (Hc & Hn' & Hidx').
  destruct (IH (handle tk e s).2) as (Hc2 & Hn2 & Hidx2).
  - congruence.
  - lia.
  - repeat split; try congruence; lia.
Qed.

Lemma current_class_reads s id :
  1 ≤ _cur_class_idx s →
  _classes s !! Z.to_nat (_cur_class_idx s - 1) = Some id →
  current_class s = (Returned id, s).
Proof.
  intros Hidx Hid. unfold current_class, mbind, method_bind, read, lift. simpl.
  rewrite (getitem_lookup _ _ id) by (first [lia|exact Hid]). reflexivity.
Qed.

(** ** Cells of the grid *)

Lemma pixel_grid_cells h w (i : nat) :
  (i < h * w)%nat →
  ∃ r c, (r < h)%nat ∧ (c < w)%nat ∧ i = (r * w + c)%nat.
Proof.
  intros Hi. assert (w ≠ 0)%nat by lia.
  exists (i / w)%nat, (i mod w)%nat. split; [|split].
  - apply Nat.Div0.div_lt_upper_bound. lia.
  - apply Nat.mod_upper_bound. assumption.
  - rewrite (Nat.div_mod_eq i w) at 1. lia.
Qed.

Lemma selection_cell tk verts s r c :
  consistent s → verts ≠ [] → in_grid s r c →
  selection tk verts s !! (r * (_img s).2 + c)%nat = Some (inside tk verts r c).
Proof.
  intros [] Hverts [Hr Hc]. unfold selection, inside.
  rewrite (new_path_returns verts Hverts).
  rewrite list_lookup_fmap, pix_grid0. destruct (_img s) as [h w]. simpl in *.
  rewrite pixel_grid_lookup by assumption. reflexivity.
Qed.

Lemma selection_Forall tk verts s (b : bool) :
  consistent s → verts ≠ [] →
  (∀ r c, in_grid s r c → inside tk verts r c = b) →
  Forall (λ f, f = b) (selection tk verts s).
Proof.
  intros Hs Hverts Hall. apply Forall_lookup. intros i f Hf.
  pose proof (lookup_lt_Some _ _ _ Hf) as Hi.
  rewrite selection_length in Hi by exact Hs.
  destruct (pixel_grid_cells (_img s).1 (_img s).2 i Hi) as (r & c & Hr & Hc & ->).
  rewrite selection_cell in Hf by done. injection Hf as <-.
  apply Hall. done.
Qed.

Lemma cell_is_Some {A} (a : ndarray A) r c :
  ndarray_ok a → (r < (shape a).1)%nat → (c < (shape a).2)%nat →
  ∃ x, cell a r c = Some x.
Proof.
  intros Hok Hr Hc. rewrite cell_lookup by assumption.
  apply lookup_lt_is_Some_2. rewrite Hok. unfold shape_size. nia.
Qed.

(** ** What events leave alone *)

Lemma onselect_config tk verts s :
  mask_alpha (_onselect tk verts s).2 = mask_alpha s ∧
  _classes (_onselect tk verts s).2 = _classes s ∧
  _n_classes (_onselect tk verts s).2 = _n_classes s ∧
  mask_colors (_onselect tk verts s).2 = mask_colors s ∧
  _img (_onselect tk verts s).2 = _img s ∧
  lasso (_onselect tk verts s).2 = lasso s ∧
  pix (_onselect tk verts s).2 = pix s ∧
  _pm (_onselect tk verts s).2 = _pm s ∧
  mask_dtype (_onselect tk verts s).2 = mask_dtype s.
Proof.
  unfold _onselect, paths_append, mbind, method_bind, read, lift, write, raise.
  simpl. repeat case_match; simplify_eq/=; done.
Qed.

Lemma handle_config tk e s :
  mask_alpha (handle tk e s).2 = mask_alpha s ∧
  _classes (handle tk e s).2 = _classes s ∧
  _n_classes (handle tk e s).2 = _n_classes s ∧
  mask_colors (handle tk e s).2 = mask_colors s ∧
  _img (handle tk e s).2 = _img s ∧
  lasso (handle tk e s).2 = lasso s ∧
  pix (handle tk e s).2 = pix s ∧
  _pm (handle tk e s).2 = _pm s ∧
  mask_dtype (handle tk e s).2 = mask_dtype s.
Proof.
  destruct e as [val|val|verts]; simpl.
  - destruct (erasing_set_frame val s) as [b ->]. done.
  - destruct (current_class_set_frame val s) as [k ->]. done.
  - apply onselect_config.
Qed.

Lemma after_config tk evs s :
  mask_alpha (after tk evs s) = mask_alpha s ∧
  _classes (after tk evs s) = _classes s ∧
  _n_classes (after tk evs s) = _n_classes s ∧
  mask_colors (after tk evs s) = mask_colors s ∧
  _img (after tk evs s) = _img s ∧
  lasso (after tk evs s) = lasso s ∧
  pix (after tk evs s) = pix s ∧
  _pm (after tk evs s) = _pm s ∧
  mask_dtype (after tk evs s) = mask_dtype s.
Proof.
  revert s. induction evs as [|e evs IH]; intros s; simpl; [done|].
  destruct (IH (handle tk e s).2) as (-> & -> & -> & -> & -> & -> & -> & -> & ->).
  apply handle_config.
Qed.

(** ** The selection handler, cell by cell *)

Lemma inside_nonempty tk verts r c : inside tk verts r c = true → verts ≠ [].
Proof. destruct verts; [discriminate|done]. Qed.

(** A gesture that returned had a vertex and a class index the mask holds. *)
Lemma onselect_returned tk verts s s' :
  consistent s → _onselect tk verts s = (Returned tt, s') →
  verts ≠ [] ∧ (_erasing s = true ∨ index_fits s).
Proof.
  intros Hs Hrun. destruct verts as [|v verts]; [discriminate|].
  split; [done|]. destruct (_erasing s) eqn:Her; [auto|]. right.
  destruct (cast (mask_dtype s) (_cur_class_idx s)) as [k|e] eqn:Hcast.
  - unfold index_fits. rewrite Hcast. f_equal. eapply cast_returned, Hcast.
  - rewrite (onselect_overflow tk (v :: verts) s e) in Hrun by done. discriminate.
Qed.

Lemma onselect_cell tk verts s s' r c :
  consistent s → _onselect tk verts s = (Returned tt, s') → in_grid s r c →
  ∃ label pixel colour,
    cell (mask s) r c = Some label ∧
    cell (_overlay s) r c = Some pixel ∧
    color_table s (_cur_class_idx s) = Some colour ∧
    cell (mask s') r c =
      Some (if inside tk verts r c
            then (if _erasing s then 0 else _cur_class_idx s)
            else label) ∧
    cell (_overlay s') r c =
      Some (if inside tk verts r c
            then (if _erasing s then transparent else colour)
            else pixel).
Proof.
  intros Hs Hrun' Hrc.
  destruct (onselect_returned tk verts s s' Hs Hrun') as [Hverts Hfits].
  destruct (onselect_run tk verts s Hs Hverts Hfits) as (colour & l & Hc & _ & Hrun).
  rewrite Hrun in Hrun'. injection Hrun' as <-.
  pose proof (selection_cell tk verts s r c Hs Hverts Hrc) as Hsel.
  destruct Hs, Hrc as [Hr Hc'].
  destruct (cell_is_Some (mask s) r c) as [label Hlabel]; [done|congruence..|].
  destruct (cell_is_Some (_overlay s) r c) as [pixel Hpixel]; [done|congruence..|].
  exists label, pixel, colour.
  split; [exact Hlabel|]. split; [exact Hpixel|]. split; [exact Hc|].
  rewrite cell_lookup in Hlabel by congruence.
  rewrite cell_lookup in Hpixel by congruence.
  rewrite !cell_lookup by (simpl; congruence). simpl.
  rewrite mask_shape0 in Hlabel |- *. rewrite overlay_shape0 in Hpixel |- *.
  split; apply overwrite_lookup; assumption.
Qed.

(** C1, as the code has it. A completed gesture with at least one vertex,
    on a widget whose current class index the mask's element type can hold
    (any widget that is erasing: 0 always fits), returns normally and, for
    every cell of the grid: a cell inside the polygon gets mask value 0 and
    a transparent overlay when the widget is erasing, and otherwise the
    current 1-based class index and the colour-table entry of that class;
    a cell outside the polygon keeps its mask value and its overlay. *)
Theorem onselect_cells tk verts s :
  consistent s → verts ≠ [] → _erasing s = true ∨ index_fits s →
  ∃ s' colour,
    _onselect tk verts s = (Returned tt, s') ∧
    color_table s (_cur_class_idx s) = Some colour ∧
    ∀ r c, in_grid s r c →
      ∃ label pixel,
        cell (mask s) r c = Some label ∧
        cell (_overlay s) r c = Some pixel ∧
        cell (mask s') r c =
          Some (if inside tk verts r c
                then (if _erasing s then 0 else _cur_class_idx s)
                else label) ∧
        cell (_overlay s') r c =
          Some (if inside tk verts r c
                then (if _erasing s then transparent else colour)
                else pixel).
Proof.
  intros Hs Hverts Hfits.
  destruct (onselect_run tk verts s Hs Hverts Hfits) as (colour & l & Hc & _ & Hrun).
  eexists _, colour. split; [exact Hrun|]. split; [exact Hc|].
  intros r c Hrc.
  destruct (onselect_cell tk verts s _ r c Hs Hrun Hrc)
    as (label & pixel & colour' & Hl & Hp & Hc' & Hm & Ho).
  assert (colour' = colour) as -> by congruence.
  exists label, pixel. done.
Qed.

Lemma onselect_everything tk verts s :
  consistent s → verts ≠ [] → _erasing s = true ∨ index_fits s →
  (∀ r c, in_grid s r c → inside tk verts r c = true) →
  ∃ s' colour,
    _onselect tk verts s = (Returned tt, s') ∧
    color_table s (_cur_class_idx s) = Some colour ∧
    consistent s' ∧
    _img s' = _img s ∧ _erasing s' = _erasing s ∧
    mask s' =
      NDArray (_img s)
        (replicate (shape_size (_img s)) (if _erasing s then 0 else _cur_class_idx s)) ∧
    _overlay s' =
      NDArray (_img s)
        (replicate (shape_size (_img s)) (if _erasing s then transparent else colour)).
Proof.
  intros Hs Hverts Hfits Hall.
  destruct (onselect_run tk verts s Hs Hverts Hfits) as (colour & l & Hc & _ & Hrun).
  pose proof (onselect_consistent tk verts s Hs) as Hs'.
  pose proof (selection_Forall tk verts s true Hs Hverts Hall) as Hflags.
  pose proof (selection_length tk verts s Hs) as Hlen.
  rewrite Hrun in Hs'. eexists _, colour. split; [exact Hrun|].
  split; [exact Hc|]. split; [exact Hs'|]. simpl.
  destruct Hs. unfold ndarray_ok in *.
  rewrite !overwrite_all by (first [assumption|congruence]).
  rewrite mask_cells0, overlay_cells0, mask_shape0, overlay_shape0. done.
Qed.

(** C3, as the code has it. A polygon (of at least one vertex) that
    contains every pixel, applied in adding mode with a current class index
    that the mask's element type can hold, sets every mask cell to that
    index and every overlay cell to the colour of that class; switching to
    erasing and applying the same polygon again brings every mask cell back
    to 0 and every overlay cell back to transparent. *)
Theorem full_polygon_roundtrip tk verts s :
  consistent s → verts ≠ [] → _erasing s = false → index_fits s →
  (∀ r c, in_grid s r c → inside tk verts r c = true) →
  ∃ colour s1 s2,
    color_table s (_cur_class_idx s) = Some colour ∧
    _onselect tk verts s = (Returned tt, s1) ∧
    mask s1 = NDArray (_img s) (replicate (shape_size (_img s)) (_cur_class_idx s)) ∧
    _overlay s1 = NDArray (_img s) (replicate (shape_size (_img s)) colour) ∧
    (erasing_set (PyBool true);; _onselect tk verts) s1 = (Returned tt, s2) ∧
    mask s2 = NDArray (_img s) (replicate (shape_size (_img s)) 0) ∧
    _overlay s2 = NDArray (_img s) (replicate (shape_size (_img s)) transparent).
Proof.
  intros Hs Hverts Her Hfits Hall.
  destruct (onselect_everything tk verts s Hs Hverts (or_intror Hfits) Hall)
    as (s1 & colour & Hrun1 & Hc & Hs1 & Himg1 & _ & Hm1 & Ho1).
  rewrite Her in Hm1, Ho1.
  assert (Hs1e : consistent (set_erasing true s1)) by (destruct Hs1; split; done).
  assert (Hall1 : ∀ r c, in_grid (set_erasing true s1) r c →
                         inside tk verts r c = true).
  { intros r c Hrc. apply Hall. unfold in_grid in *. simpl in Hrc.
    rewrite <- Himg1. exact Hrc. }
  destruct (onselect_everything tk verts (set_erasing true s1) Hs1e Hverts
              (or_introl eq_refl) Hall1)
    as (s2 & colour' & Hrun2 & _ & _ & _ & _ & Hm2 & Ho2).
  simpl in Hm2, Ho2. rewrite Himg1 in Hm2, Ho2.
  exists colour, s1, s2. repeat split; assumption.
Qed.

(** C7, as the code has it. A gesture (of at least one vertex) whose
    polygon contains no pixel of the grid, on a widget that is erasing or
    whose current class index the mask's element type can hold, returns
    normally, leaves the label mask and the overlay as they were, leaves the
    history of the other mode as it was, and appends the polygon to the
    history of the current mode, which grows by exactly one entry. *)
Theorem empty_selection_frame tk verts s :
  consistent s → verts ≠ [] → _erasing s = true ∨ index_fits s →
  (∀ r c, in_grid s r c → inside tk verts r c = false) →
  ∃ s' history,
    _onselect tk verts s = (Returned tt, s') ∧
    mask s' = mask s ∧
    _overlay s' = _overlay s ∧
    _paths s' !! mode_key (negb (_erasing s)) =
      _paths s !! mode_key (negb (_erasing s)) ∧
    _paths s !! mode_key (_erasing s) = Some history ∧
    _paths s' !! mode_key (_erasing s) = Some (history ++ [MkPath verts]) ∧
    length (history ++ [MkPath verts]) = S (length history).
Proof.
  intros Hs Hverts Hfits Hall.
  destruct (onselect_run tk verts s Hs Hverts Hfits) as (colour & l & Hc & Hl & Hrun).
  pose proof (selection_Forall tk verts s false Hs Hverts Hall) as Hflags.
  pose proof (selection_length tk verts s Hs) as Hlen.
  eexists _, l. split; [exact Hrun|]. simpl.
  destruct Hs. unfold ndarray_ok in *.
  rewrite !overwrite_none by (first [assumption|congruence]).
  repeat split.
  - destruct (mask s); reflexivity.
  - destruct (_overlay s); reflexivity.
  - rewrite lookup_insert_ne; [reflexivity|]. destruct (_erasing s); done.
  - exact Hl.
  - apply lookup_insert_eq.
  - rewrite length_app. simpl. lia.
Qed.

(** C2. A widget constructed with a seed mask of the image's shape whose
    values lie in [0, N] (or with the default mask) starts with that very
    mask; then, and after every later event, mask and overlay have the
    image's shape and at every cell of the image the overlay is the function
    [overlay_of] of the label mask: transparent where the mask is 0 and the
    colour-table entry of class [k] where the mask holds [k] in [1, N]. *)
Theorem overlay_synchronized tk a s evs :
  __init__ tk a = Returned s → seed_ok a →
  shape (initial_mask a) = arg_img a → seed_in_range a →
  mask s = initial_mask a ∧
  shape (mask (after tk evs s)) = arg_img a ∧
  shape (_overlay (after tk evs s)) = arg_img a ∧
  ∀ r c, (r < (arg_img a).1)%nat → (c < (arg_img a).2)%nat →
    ∃ k px,
      cell (mask (after tk evs s)) r c = Some k ∧
      cell (_overlay (after tk evs s)) r c = Some px ∧
      overlay_of (after tk evs s) k = Some px.
Proof.
  intros Hinit Hseed Hshape Hrange.
  pose proof (init_consistent tk a s Hinit Hseed Hshape) as Hs.
  pose proof (after_consistent tk evs s Hs) as Hs'.
  pose proof (after_synchronized tk evs s Hs
                (init_synchronized tk a s Hinit Hseed Hshape Hrange)) as Hsync.
  destruct (init_returned tk a s Hinit) as (_ & _ & _ & _ & Himg & Hm & _).
  destruct (after_config tk evs s) as (_ & _ & _ & _ & Himg' & _).
  rewrite Himg in Himg'.
  split; [exact Hm|].
  pose proof (mask_shape _ Hs') as Hmsh. pose proof (overlay_shape _ Hs') as Hosh.
  split; [congruence|]. split; [congruence|].
  intros r c Hr Hc.
  destruct (cell_is_Some (mask (after tk evs s)) r c) as [k Hk];
    [apply Hs'|congruence..|].
  destruct (cell_is_Some (_overlay (after tk evs s)) r c) as [px Hpx];
    [apply Hs'|congruence..|].
  exists k, px. split; [exact Hk|]. split; [exact Hpx|].
  rewrite cell_lookup in Hk by congruence.
  rewrite cell_lookup in Hpx by congruence.
  rewrite Hmsh in Hk. rewrite Hosh in Hpx.
  unfold synchronized in Hsync.
  exact (Forall2_lookup_lr _ _ _ _ _ _ Hsync Hk Hpx).
Qed.

Lemma bind_returned {S A B} (m : method S A) (f : A → method S B) s a s1 :
  m s = (Returned a, s1) → (m ≫= f) s = f a s1.
Proof. intros H. unfold mbind, method_bind. rewrite H. reflexivity. Qed.

Lemma current_class_set_index k s :
  1 ≤ k ≤ _n_classes s →
  current_class_set (PyInt k) s = (Returned tt, set_cur_class_idx k s).
Proof.
  intros Hk. rewrite current_class_set_int.
  destruct (Z.ltb_spec 0 k); [|lia].
  destruct (Z.ltb_spec k (_n_classes s + 1)); [|lia]. reflexivity.
Qed.

Lemma onselect_frame tk verts s :
  consistent s → verts ≠ [] → _erasing s = true ∨ index_fits s →
  ∃ s', _onselect tk verts s = (Returned tt, s') ∧ consistent s' ∧
        _img s' = _img s ∧ _erasing s' = _erasing s ∧
        _n_classes s' = _n_classes s ∧ mask_colors s' = mask_colors s ∧
        _cur_class_idx s' = _cur_class_idx s ∧ mask_dtype s' = mask_dtype s.
Proof.
  intros Hs Hverts Hfits.
  destruct (onselect_run tk verts s Hs Hverts Hfits) as (c & l & _ & _ & Hrun).
  pose proof (onselect_consistent tk verts s Hs) as Hs'. rewrite Hrun in Hs'.
  eexists. split; [exact Hrun|]. split; [exact Hs'|]. done.
Qed.

(** C4. With adding mode on, polygon [A] drawn with current class 1 and then
    polygon [B] drawn with current class 2: all four steps return normally,
    and every cell inside [B], so every cell of the overlap of [A] and [B],
    ends with mask value 2 and with exactly the colour of class 2. *)
Theorem later_gesture_overwrites tk A B s r c :
  consistent s → _erasing s = false → 2 ≤ _n_classes s →
  in_grid s r c → inside tk A r c = true → inside tk B r c = true →
  ∃ s' colour,
    (current_class_set (PyInt 1);; _onselect tk A;;
     current_class_set (PyInt 2);; _onselect tk B) s = (Returned tt, s') ∧
    color_table s 2 = Some colour ∧
    cell (mask s') r c = Some 2 ∧
    cell (_overlay s') r c = Some colour.
Proof.
  intros Hs Her Hn Hrc HA HB.
  apply inside_nonempty in HA as HvA. apply inside_nonempty in HB as HvB.
  assert (Hs1 : consistent (set_cur_class_idx 1 s)).
  { apply set_cur_class_idx_consistent; [exact Hs|lia]. }
  destruct (onselect_frame tk A _ Hs1 HvA)
    as (s2 & HrunA & Hs2 & Himg2 & Her2 & Hn2 & Hcol2 & _).
  { right. apply cast_small. simpl. lia. }
  simpl in Himg2, Her2, Hn2, Hcol2.
  assert (Hs3 : consistent (set_cur_class_idx 2 s2)).
  { apply set_cur_class_idx_consistent; [exact Hs2|lia]. }
  destruct (onselect_frame tk B _ Hs3 HvB) as (s' & HrunB & _).
  { right. apply cast_small. simpl. lia. }
  destruct (onselect_cell tk B _ s' r c Hs3 HrunB)
    as (label & pixel & colour & _ & _ & Hcol & Hm & Ho).
  { unfold in_grid in *. simpl. rewrite Himg2. exact Hrc. }
  rewrite HB in Hm, Ho. simpl in Hm, Ho. rewrite Her2, Her in Hm, Ho.
  unfold color_table in *. simpl in Hcol. rewrite Hcol2 in Hcol.
  exists s', colour. split; [|split; [exact Hcol|split; assumption]].
  rewrite (bind_returned _ _ s tt _ (current_class_set_index 1 s ltac:(lia))).
  rewrite (bind_returned _ _ _ tt _ HrunA).
  rewrite (bind_returned _ _ s2 tt _ (current_class_set_index 2 s2 ltac:(lia))).
  exact HrunB.
Qed.

(** ** Reading and writing the mode state *)

(** C5, as the code has it. For a widget with [N] classes and a 1-based
    index [i] in [1, N]: writing the integer [i] to [current_class] and
    reading it back yields the identifier at position [i - 1] of the
    registry; and when that identifier is a string, writing the string and
    reading back yields the same identifier. *)
Theorem current_class_roundtrip s i ident :
  consistent s → 1 ≤ i ≤ _n_classes s →
  _classes s !! Z.to_nat (i - 1) = Some ident →
  ((current_class_set (PyInt i);; current_class) s).1 = Returned ident ∧
  ∀ name, ident = IdStr name →
    ((current_class_set (PyStr name);; current_class) s).1 = Returned ident.
Proof.
  intros Hs Hi Hid. split.
  - rewrite (bind_returned _ _ s tt _ (current_class_set_index i s Hi)).
    rewrite (current_class_reads _ ident); [reflexivity|simpl; lia|exact Hid].
  - intros name ->.
    assert (Hin : IdStr name ∈ _classes s) by (eapply list_elem_of_lookup_2, Hid).
    destruct (index_member _ _ Hin) as (j & Hj & Hlook).
    assert (Hset : current_class_set (PyStr name) s =
                   (Returned tt, set_cur_class_idx (Z.of_nat j + 1) s)).
    { rewrite current_class_set_str, decide_True by exact Hin.
      rewrite Hj. reflexivity. }
    rewrite (bind_returned _ _ s tt _ Hset).
    rewrite (current_class_reads _ (IdStr name)); [reflexivity|simpl; lia|].
    simpl. replace (Z.to_nat (Z.of_nat j + 1 - 1)) with j by lia. exact Hlook.
Qed.

(** C6. Writing the integer 0, the integer [N + 1] or a string that is not
    in the registry to [current_class] raises [ValueError], and writing a
    value that is not a [bool] to [erasing] raises [TypeError]; each time
    the widget is left exactly as it was. *)
Theorem invalid_writes_raise s name val :
  IdStr name ∉ _classes s → isinstance_bool val = false →
  current_class_set (PyInt 0) s = (Raised ValueError, s) ∧
  current_class_set (PyInt (_n_classes s + 1)) s = (Raised ValueError, s) ∧
  current_class_set (PyStr name) s = (Raised ValueError, s) ∧
  erasing_set val s = (Raised TypeError, s).
Proof.
  intros Hname Hval. split; [|split; [|split]].
  - rewrite current_class_set_int. reflexivity.
  - rewrite current_class_set_int.
    rewrite Z.ltb_irrefl, andb_false_r. reflexivity.
  - rewrite current_class_set_str, decide_False by exact Hname. reflexivity.
  - destruct val; try reflexivity. discriminate.
Qed.

(** C10. Writing to [current_class] a value that is neither a string nor an
    [Integral] (a float, [None]) raises nothing and leaves the widget, and
    with it the current class, exactly as it was. *)
Theorem other_values_ignored val s :
  isinstance_str val = false → isinstance_Integral val = false →
  current_class_set val s = (Returned tt, s).
Proof. destruct val; intros; try discriminate; reflexivity. Qed.

(** ** The registry and the background *)

(** C8, as the code has it. The background is the class index 0, not an
    identifier. The registry of a constructed widget is the explicit list as
    given, or the identifiers [0 .. n-1] for a count [n]; whatever events
    follow, the registry stays the same, the current class index stays in
    [1, N], and reading [current_class] returns the registry member at the
    position before that index. *)
Theorem current_class_never_background tk a s evs :
  __init__ tk a = Returned s →
  _classes (after tk evs s) = registry (arg_classes a) ∧
  1 ≤ _cur_class_idx (after tk evs s) ≤ Z.of_nat (length (registry (arg_classes a))) ∧
  ∃ ident,
    (current_class (after tk evs s)).1 = Returned ident ∧
    registry (arg_classes a) !! Z.to_nat (_cur_class_idx (after tk evs s) - 1)
      = Some ident.
Proof.
  intros Hinit.
  destruct (init_returned tk a s Hinit) as (Hcls & Hn & Hn1 & _ & _ & _ & _ & _ & Hidx & _).
  destruct (after_registry tk evs s) as (Hc & Hn' & Hi); [congruence|lia|].
  rewrite Hc, Hcls. split; [reflexivity|]. split; [lia|].
  destruct (lookup_lt_is_Some_2 (registry (arg_classes a))
              (Z.to_nat (_cur_class_idx (after tk evs s) - 1))) as [ident Hid]; [lia|].
  exists ident. split; [|exact Hid].
  rewrite (current_class_reads _ ident); [reflexivity|lia|].
  rewrite Hc, Hcls. exact Hid.
Qed.

(** ** Colour lists of the wrong length *)

Lemma imshow_rgba_returns {A} (a : ndarray A) :
  shape_size (shape a) ≠ 0%nat → imshow_rgba a = Returned tt.
Proof.
  intros H. unfold imshow_rgba.
  destruct (Nat.eqb_spec (shape_size (shape a)) 0); done.
Qed.

Lemma init_returns tk a :
  1 ≤ Z.of_nat (length (registry (arg_classes a))) →
  shape (initial_mask a) = arg_img a →
  shape_size (arg_img a) ≠ 0%nat →
  Z.of_nat (length (registry (arg_classes a))) ≤
    Z.of_nat (length (palette tk (arg_mask_colors a) (arg_mask_alpha a)
                        (Z.of_nat (length (registry (arg_classes a)))))) →
  (∃ k, resolve_button (arg_pan_mousebutton a) = Returned k) →
  (∃ k, resolve_button (arg_lasso_mousebutton a) = Returned k) →
  ∃ s, __init__ tk a = Returned s.
Proof.
  intros Hn Hsh Himg Hcol [pan Hpan] [las Hlas]. unfold __init__.
  destruct (overlay_loop_returns
              (palette tk (arg_mask_colors a) (arg_mask_alpha a)
                 (Z.of_nat (length (registry (arg_classes a)))))
              (initial_mask a)
              (range (Z.of_nat (length (registry (arg_classes a))) + 1))
              (np_zeros transparent (arg_img a))) as [o Ho].
  { rewrite Hsh. reflexivity. }
  { apply Forall_forall. intros i Hi%range_bounds. split; [lia|].
    etrans; [|exact Hcol]. lia. }
  rewrite Ho. cbn [mbind outcome_bind].
  apply overlay_loop_returned in Ho as (Hosh & _);
    [|apply Forall_forall; intros i Hi%range_bounds; lia].
  rewrite imshow_rgba_returns by (rewrite Hosh; exact Himg).
  cbn [mbind outcome_bind]. rewrite Hpan, Hlas. cbn [mbind outcome_bind].
  rewrite current_class_set_index by (simpl; lia). eauto.
Qed.

Lemma init_short_palette tk a :
  Z.of_nat (length (palette tk (arg_mask_colors a) (arg_mask_alpha a)
                      (Z.of_nat (length (registry (arg_classes a))))))
    < Z.of_nat (length (registry (arg_classes a))) →
  __init__ tk a = Raised IndexError.
Proof.
  intros Hshort. unfold __init__.
  destruct (overlay_loop _ _ _ _) as [o|e] eqn:Ho.
  - exfalso. apply overlay_loop_returned in Ho as (_ & _ & Hall & _).
    2:{ apply Forall_forall. intros i Hi%range_bounds. lia. }
    rewrite Forall_forall in Hall.
    specialize (Hall (Z.of_nat (length (registry (arg_classes a))))).
    rewrite range_bounds in Hall. lia.
  - apply overlay_loop_raised in Ho as ->. reflexivity.
Qed.

(** C9, as the code has it. The constructor never compares the length of
    an explicit colour list with the class count [N]. With at least one
    class, a mask of the image's shape (the default mask has it) and
    resolvable mouse buttons: a colour list with at least [N] entries, also
    one with more than [N], is accepted and stored with the configured
    alpha, provided the image has cells for [imshow] to display; a colour
    list with fewer than [N] entries makes the overlay loop raise
    [IndexError]. *)
Theorem explicit_colors_unvalidated tk a cs :
  arg_mask_colors a = Some cs →
  shape (initial_mask a) = arg_img a →
  1 ≤ Z.of_nat (length (registry (arg_classes a))) →
  (∃ k, resolve_button (arg_pan_mousebutton a) = Returned k) →
  (∃ k, resolve_button (arg_lasso_mousebutton a) = Returned k) →
  (Z.of_nat (length (registry (arg_classes a))) ≤ Z.of_nat (length cs) →
   shape_size (arg_img a) ≠ 0%nat →
   ∃ s, __init__ tk a = Returned s ∧
        mask_colors s = with_alpha (arg_mask_alpha a) <$> cs) ∧
  (Z.of_nat (length cs) < Z.of_nat (length (registry (arg_classes a))) →
   __init__ tk a = Raised IndexError).
Proof.
  intros Hcs Hsh Hn Hpan Hlas.
  assert (Hpal : ∀ n, palette tk (arg_mask_colors a) (arg_mask_alpha a) n =
                      with_alpha (arg_mask_alpha a) <$> cs).
  { intros n. unfold palette. rewrite Hcs. reflexivity. }
  split.
  - intros Hlen Himg. destruct (init_returns tk a) as [s Hs]; try assumption.
    { rewrite Hpal, length_fmap. exact Hlen. }
    exists s. split; [exact Hs|].
    apply init_returned in Hs as (_ & _ & _ & -> & _). apply Hpal.
  - intros Hlen. apply init_short_palette. rewrite Hpal, length_fmap. exact Hlen.
Qed.

(** ** The properties on the small instance *)

Lemma onselect_cells_witness :
  consistent demo ∧ centre ≠ [] ∧ (_erasing demo = true ∨ index_fits demo) ∧
  ∃ s' colour,
    _onselect demo_toolkit centre demo = (Returned tt, s') ∧
    color_table demo (_cur_class_idx demo) = Some colour ∧
    ∀ r c, in_grid demo r c →
      ∃ label pixel,
        cell (mask demo) r c = Some label ∧
        cell (_overlay demo) r c = Some pixel ∧
        cell (mask s') r c =
          Some (if inside demo_toolkit centre r c
                then (if _erasing demo then 0 else _cur_class_idx demo)
                else label) ∧
        cell (_overlay s') r c =
          Some (if inside demo_toolkit centre r c
                then (if _erasing demo then transparent else colour)
                else pixel).
Proof.
  assert (H1 : consistent demo) by consistent_instance.
  assert (H2 : centre ≠ []) by discriminate.
  assert (H3 : _erasing demo = true ∨ index_fits demo)
    by (right; vm_compute; reflexivity).
  split; [exact H1|]. split; [exact H2|]. split; [exact H3|].
  exact (onselect_cells demo_toolkit centre demo H1 H2 H3).
Defined.

Lemma overlay_synchronized_witness :
  __init__ demo_toolkit seeded_args = Returned demo_seeded ∧
  seed_ok seeded_args ∧
  shape (initial_mask seeded_args) = arg_img seeded_args ∧
  seed_in_range seeded_args ∧
  mask demo_seeded = initial_mask seeded_args ∧
  shape (mask (after demo_toolkit session demo_seeded)) = arg_img seeded_args ∧
  shape (_overlay (after demo_toolkit session demo_seeded)) = arg_img seeded_args ∧
  ∀ r c, (r < (arg_img seeded_args).1)%nat → (c < (arg_img seeded_args).2)%nat →
    ∃ k px,
      cell (mask (after demo_toolkit session demo_seeded)) r c = Some k ∧
      cell (_overlay (after demo_toolkit session demo_seeded)) r c = Some px ∧
      overlay_of (after demo_toolkit session demo_seeded) k = Some px.
Proof.
  assert (H1 : __init__ demo_toolkit seeded_args = Returned demo_seeded)
    by (vm_compute; reflexivity).
  assert (H2 : seed_ok seeded_args) by (vm_compute; reflexivity).
  assert (H3 : shape (initial_mask seeded_args) = arg_img seeded_args)
    by reflexivity.
  assert (H4 : seed_in_range seeded_args) by compute_done.
  split; [exact H1|]. split; [exact H2|]. split; [exact H3|]. split; [exact H4|].
  exact (overlay_synchronized demo_toolkit seeded_args demo_seeded session
           H1 H2 H3 H4).
Defined.

Lemma full_polygon_roundtrip_witness :
  consistent demo ∧ everything ≠ [] ∧ _erasing demo = false ∧ index_fits demo ∧
  (∀ r c, in_grid demo r c → inside demo_toolkit everything r c = true) ∧
  ∃ colour s1 s2,
    color_table demo (_cur_class_idx demo) = Some colour ∧
    _onselect demo_toolkit everything demo = (Returned tt, s1) ∧
    mask s1 =
      NDArray (_img demo) (replicate (shape_size (_img demo)) (_cur_class_idx demo)) ∧
    _overlay s1 = NDArray (_img demo) (replicate (shape_size (_img demo)) colour) ∧
    (erasing_set (PyBool true);; _onselect demo_toolkit everything) s1
      = (Returned tt, s2) ∧
    mask s2 = NDArray (_img demo) (replicate (shape_size (_img demo)) 0) ∧
    _overlay s2 =
      NDArray (_img demo) (replicate (shape_size (_img demo)) transparent).
Proof.
  assert (H1 : consistent demo) by consistent_instance.
  assert (H2 : everything ≠ []) by discriminate.
  assert (H3 : _erasing demo = false) by (vm_compute; reflexivity).
  assert (H4 : index_fits demo) by (vm_compute; reflexivity).
  assert (H5 : ∀ r c, in_grid demo r c →
                      inside demo_toolkit everything r c = true) by each_cell.
  split; [exact H1|]. split; [exact H2|]. split; [exact H3|].
  split; [exact H4|]. split; [exact H5|].
  exact (full_polygon_roundtrip demo_toolkit everything demo H1 H2 H3 H4 H5).
Defined.

Lemma later_gesture_overwrites_witness :
  consistent demo ∧ _erasing demo = false ∧ 2 ≤ _n_classes demo ∧
  in_grid demo 1 1 ∧
  inside demo_toolkit top_left 1 1 = true ∧
  inside demo_toolkit centre 1 1 = true ∧
  ∃ s' colour,
    (current_class_set (PyInt 1);; _onselect demo_toolkit top_left;;
     current_class_set (PyInt 2);; _onselect demo_toolkit centre) demo
      = (Returned tt, s') ∧
    color_table demo 2 = Some colour ∧
    cell (mask s') 1 1 = Some 2 ∧
    cell (_overlay s') 1 1 = Some colour.
Proof.
  assert (H1 : consistent demo) by consistent_instance.
  assert (H2 : _erasing demo = false) by (vm_compute; reflexivity).
  assert (H3 : 2 ≤ _n_classes demo) by (vm_compute; intros ?; discriminate).
  assert (H4 : in_grid demo 1 1) by (split; vm_compute; lia).
  assert (H5 : inside demo_toolkit top_left 1 1 = true) by (vm_compute; reflexivity).
  assert (H6 : inside demo_toolkit centre 1 1 = true) by (vm_compute; reflexivity).
  repeat (split; [assumption|]).
  exact (later_gesture_overwrites demo_toolkit top_left centre demo 1 1
           H1 H2 H3 H4 H5 H6).
Defined.

Lemma empty_selection_frame_witness :
  consistent demo ∧ outside ≠ [] ∧ (_erasing demo = true ∨ index_fits demo) ∧
  (∀ r c, in_grid demo r c → inside demo_toolkit outside r c = false) ∧
  ∃ s' history,
    _onselect demo_toolkit outside demo = (Returned tt, s') ∧
    mask s' = mask demo ∧
    _overlay s' = _overlay demo ∧
    _paths s' !! mode_key (negb (_erasing demo)) =
      _paths demo !! mode_key (negb (_erasing demo)) ∧
    _paths demo !! mode_key (_erasing demo) = Some history ∧
    _paths s' !! mode_key (_erasing demo) = Some (history ++ [MkPath outside]) ∧
    length (history ++ [MkPath outside]) = S (length history).
Proof.
  assert (H1 : consistent demo) by consistent_instance.
  assert (H2 : outside ≠ []) by discriminate.
  assert (H3 : _erasing demo = true ∨ index_fits demo)
    by (right; vm_compute; reflexivity).
  assert (H4 : ∀ r c, in_grid demo r c →
                      inside demo_toolkit outside r c = false) by each_cell.
  split; [exact H1|]. split; [exact H2|]. split; [exact H3|]. split; [exact H4|].
  exact (empty_selection_frame demo_toolkit outside demo H1 H2 H3 H4).
Defined.

Lemma current_class_roundtrip_witness :
  consistent demo_named ∧ 1 ≤ 2 ≤ _n_classes demo_named ∧
  _classes demo_named !! Z.to_nat (2 - 1) = Some (IdStr "nucleus") ∧
  ((current_class_set (PyInt 2);; current_class) demo_named).1
    = Returned (IdStr "nucleus") ∧
  ∀ name, IdStr "nucleus" = IdStr name →
    ((current_class_set (PyStr name);; current_class) demo_named).1
      = Returned (IdStr "nucleus").
Proof.
  assert (H1 : consistent demo_named) by consistent_instance.
  assert (H2 : 1 ≤ 2 ≤ _n_classes demo_named)
    by (vm_compute; split; intros ?; discriminate).
  assert (H3 : _classes demo_named !! Z.to_nat (2 - 1) = Some (IdStr "nucleus"))
    by (vm_compute; reflexivity).
  split; [exact H1|]. split; [exact H2|]. split; [exact H3|].
  exact (current_class_roundtrip demo_named 2 (IdStr "nucleus") H1 H2 H3).
Defined.

Lemma invalid_writes_raise_witness :
  (IdStr "tissue" ∉ _classes demo_named) ∧ isinstance_bool (PyInt 1) = false ∧
  current_class_set (PyInt 0) demo_named = (Raised ValueError, demo_named) ∧
  current_class_set (PyInt (_n_classes demo_named + 1)) demo_named
    = (Raised ValueError, demo_named) ∧
  current_class_set (PyStr "tissue") demo_named = (Raised ValueError, demo_named) ∧
  erasing_set (PyInt 1) demo_named = (Raised TypeError, demo_named).
Proof.
  assert (H1 : IdStr "tissue" ∉ _classes demo_named) by compute_done.
  assert (H2 : isinstance_bool (PyInt 1) = false) by reflexivity.
  split; [exact H1|]. split; [exact H2|].
  exact (invalid_writes_raise demo_named "tissue" (PyInt 1) H1 H2).
Defined.

Lemma other_values_ignored_witness :
  isinstance_str (PyFloat (3 # 2)) = false ∧
  isinstance_Integral (PyFloat (3 # 2)) = false ∧
  current_class_set (PyFloat (3 # 2)) demo = (Returned tt, demo).
Proof.
  split; [reflexivity|]. split; [reflexivity|].
  exact (other_values_ignored (PyFloat (3 # 2)) demo eq_refl eq_refl).
Defined.

Lemma current_class_never_background_witness :
  __init__ demo_toolkit (demo_args (ClassCount 2) None) = Returned demo ∧
  _classes (after demo_toolkit [SetCurrentClass (PyInt 0); Select centre] demo)
    = registry (ClassCount 2) ∧
  1 ≤ _cur_class_idx (after demo_toolkit [SetCurrentClass (PyInt 0); Select centre] demo)
    ≤ Z.of_nat (length (registry (ClassCount 2))) ∧
  ∃ ident,
    (current_class
       (after demo_toolkit [SetCurrentClass (PyInt 0); Select centre] demo)).1
      = Returned ident ∧
    registry (ClassCount 2)
      !! Z.to_nat (_cur_class_idx
                     (after demo_toolkit [SetCurrentClass (PyInt 0); Select centre] demo) - 1)
      = Some ident.
Proof.
  assert (H : __init__ demo_toolkit (demo_args (ClassCount 2) None) = Returned demo)
    by (vm_compute; reflexivity).
  split; [exact H|].
  exact (current_class_never_background demo_toolkit _ demo
           [SetCurrentClass (PyInt 0); Select centre] H).
Defined.

Lemma explicit_colors_unvalidated_witness :
  arg_mask_colors primaries_args = Some primaries ∧
  shape (initial_mask primaries_args) = arg_img primaries_args ∧
  1 ≤ Z.of_nat (length (registry (arg_classes primaries_args))) ∧
  (∃ k, resolve_button (arg_pan_mousebutton primaries_args) = Returned k) ∧
  (∃ k, resolve_button (arg_lasso_mousebutton primaries_args) = Returned k) ∧
  (Z.of_nat (length (registry (arg_classes primaries_args)))
     ≤ Z.of_nat (length primaries) →
   shape_size (arg_img primaries_args) ≠ 0%nat →
   ∃ s, __init__ demo_toolkit primaries_args = Returned s ∧
        mask_colors s = with_alpha (arg_mask_alpha primaries_args) <$> primaries) ∧
  (Z.of_nat (length primaries)
     < Z.of_nat (length (registry (arg_classes primaries_args))) →
   __init__ demo_toolkit primaries_args = Raised IndexError).
Proof.
  assert (H1 : arg_mask_colors primaries_args = Some primaries) by reflexivity.
  assert (H2 : shape (initial_mask primaries_args) = arg_img primaries_args)
    by reflexivity.
  assert (H3 : 1 ≤ Z.of_nat (length (registry (arg_classes primaries_args))))
    by (vm_compute; intros ?; discriminate).
  assert (H4 : ∃ k, resolve_button (arg_pan_mousebutton primaries_args) = Returned k)
    by (eexists; vm_compute; reflexivity).
  assert (H5 : ∃ k, resolve_button (arg_lasso_mousebutton primaries_args) = Returned k)
    by (eexists; vm_compute; reflexivity).
  repeat (split; [assumption|]).
  exact (explicit_colors_unvalidated demo_toolkit primaries_args primaries
           H1 H2 H3 H4 H5).
Defined.

(** ** Where the code departs from the stated claims *)

(** C1 as stated fails when the mask cannot hold the class index. The mask
    is the caller's array: on a seed of [int8] zeros with 130 classes and
    class 130 current, a gesture around the centre cell raises
    [OverflowError], and the cell keeps its 0. *)
Lemma class_index_overflows_mask :
  __init__ demo_toolkit int8_args = Returned fresh_int8 ∧
  consistent demo_int8 ∧ centre ≠ [] ∧
  _erasing demo_int8 = false ∧ _cur_class_idx demo_int8 = 130 ∧
  in_grid demo_int8 1 1 ∧ inside demo_toolkit centre 1 1 = true ∧
  (_onselect demo_toolkit centre demo_int8).1 = Raised OverflowError ∧
  cell (mask (_onselect demo_toolkit centre demo_int8).2) 1 1 = Some 0 ∧
  cell (_overlay (_onselect demo_toolkit centre demo_int8).2) 1 1
    = Some transparent.
Proof.
  split; [vm_compute; reflexivity|]. split; [consistent_instance|].
  split; [discriminate|]. split; [vm_compute; reflexivity|].
  split; [vm_compute; reflexivity|]. split; [split; vm_compute; lia|].
  repeat split; vm_compute; reflexivity.
Qed.

(** C3 as stated fails in the same way: on that widget a polygon around
    the whole image, applied in adding mode with class 130 current, raises
    [OverflowError] and every mask cell stays 0. *)
Lemma full_polygon_overflows_mask :
  consistent demo_int8 ∧ everything ≠ [] ∧
  _erasing demo_int8 = false ∧ _cur_class_idx demo_int8 = 130 ∧
  (∀ r c, in_grid demo_int8 r c → inside demo_toolkit everything r c = true) ∧
  (_onselect demo_toolkit everything demo_int8).1 = Raised OverflowError ∧
  data (mask (_onselect demo_toolkit everything demo_int8).2) = replicate 9 0.
Proof.
  split; [consistent_instance|]. split; [discriminate|].
  split; [vm_compute; reflexivity|]. split; [vm_compute; reflexivity|].
  split; [each_cell_of demo_int8|].
  split; vm_compute; reflexivity.
Qed.

(** C7 as stated fails in the same way: the store into the mask is
    attempted even when no pixel is selected. On that widget a polygon
    outside the image raises [OverflowError] before the history is touched,
    so the "adding" history does not grow. *)
Lemma empty_gesture_overflows_mask :
  consistent demo_int8 ∧ outside ≠ [] ∧
  _erasing demo_int8 = false ∧ _cur_class_idx demo_int8 = 130 ∧
  (∀ r c, in_grid demo_int8 r c → inside demo_toolkit outside r c = false) ∧
  (_onselect demo_toolkit outside demo_int8).1 = Raised OverflowError ∧
  _paths demo_int8 !! "adding"%string = Some [] ∧
  _paths (_onselect demo_toolkit outside demo_int8).2 !! "adding"%string = Some [].
Proof.
  split; [consistent_instance|]. split; [discriminate|].
  split; [vm_compute; reflexivity|]. split; [vm_compute; reflexivity|].
  split; [each_cell_of demo_int8|].
  repeat split; vm_compute; reflexivity.
Qed.

(** C5 as stated fails on a registry of integers. With two anonymous
    classes the registry is [0; 1]; the identifier at position 1 is the
    integer 1, and writing it selects the class index 1, whose identifier
    is 0. *)
Lemma current_class_roundtrip_int_identifier :
  consistent demo ∧ 1 ≤ 2 ≤ _n_classes demo ∧
  _classes demo !! Z.to_nat (2 - 1) = Some (IdInt 1) ∧
  ((current_class_set (to_pyval (IdInt 1));; current_class) demo).1
    = Returned (IdInt 0) ∧
  ((current_class_set (to_pyval (IdInt 1));; current_class) demo).1
    ≠ Returned (IdInt 1).
Proof.
  split; [consistent_instance|].
  split; [vm_compute; split; intros ?; discriminate|].
  split; [vm_compute; reflexivity|].
  split; [vm_compute; reflexivity|].
  vm_compute. discriminate.
Qed.

(** C8 as stated fails for an integer count. With two anonymous classes the
    registry holds the identifier 0, and reading [current_class] right after
    construction yields it. *)
Lemma registry_of_count_holds_zero :
  __init__ demo_toolkit (demo_args (ClassCount 2) None) = Returned demo ∧
  IdInt 0 ∈ _classes demo ∧
  (current_class demo).1 = Returned (IdInt 0).
Proof.
  split; [vm_compute; reflexivity|].
  split; [compute_done|]. vm_compute. reflexivity.
Qed.

(** C9 as stated fails for a colour list that is too short. With two
    classes, one colour and the default mask, the constructor raises. *)
Lemma short_color_list_raises :
  __init__ demo_toolkit (demo_args (ClassCount 2) (Some [RGBA 1 0 0 1]))
    = Raised IndexError.
Proof. vm_compute. reflexivity. Qed.


(** ** What only a gesture changes *)

(** X5. No event, whether it returns or raises, changes what the
    constructor fixed: the opacity, the registry and its length, the colour
    table, the image's shape, the pixel coordinates and the two mouse
    buttons; the pan manager read through [panmanager] is the same before
    and after. *)
Theorem configuration_is_read_only tk evs s :
  mask_alpha (after tk evs s) = mask_alpha s ∧
  _classes (after tk evs s) = _classes s ∧
  _n_classes (after tk evs s) = _n_classes s ∧
  mask_colors (after tk evs s) = mask_colors s ∧
  _img (after tk evs s) = _img s ∧
  pix (after tk evs s) = pix s ∧
  lasso (after tk evs s) = lasso s ∧
  (panmanager (after tk evs s)).1 = (panmanager s).1.
Proof.
  destruct (after_config tk evs s) as (H1 & H2 & H3 & H4 & H5 & H6 & H7 & H8 & _).
  unfold panmanager, read. simpl. rewrite H8. done.
Qed.

Lemma write_frame tk e s :
  is_write e = true →
  mask (handle tk e s).2 = mask s ∧
  _overlay (handle tk e s).2 = _overlay s ∧
  _paths (handle tk e s).2 = _paths s ∧
  indices (handle tk e s).2 = indices s.
Proof.
  destruct e as [val|val|verts]; simpl; [| |discriminate]; intros _.
  - destruct (erasing_set_frame val s) as [b ->]. done.
  - destruct (current_class_set_frame val s) as [k ->]. done.
Qed.

(** X6. A sequence of writes to [erasing] and [current_class], valid or
    not, leaves the label mask, the overlay, both histories and [indices]
    untouched: only a completed gesture changes them. *)
Theorem writes_keep_buffers tk evs s :
  forallb is_write evs = true →
  mask (after tk evs s) = mask s ∧
  _overlay (after tk evs s) = _overlay s ∧
  (get_paths (after tk evs s)).1 = (get_paths s).1 ∧
  indices (after tk evs s) = indices s.
Proof.
  revert s. induction evs as [|e evs IH]; intros s; simpl; [done|].
  intros [He Hevs]%andb_prop.
  destruct (IH (handle tk e s).2 Hevs) as (-> & -> & Hp & ->).
  destruct (write_frame tk e s He) as (-> & -> & Hp' & ->).
  unfold get_paths, read in *. simpl in *. rewrite Hp, Hp'. done.
Qed.

(** ** Labels and opacity *)

Lemma getitem_elem_of {A} (l : list A) (k : Z) (x : A) :
  getitem l k = Returned x → x ∈ l.
Proof.
  unfold getitem. destruct (_ && _); [|discriminate].
  destruct (l !! _) eqn:E; [|discriminate]. intros [= <-].
  eapply list_elem_of_lookup_2, E.
Qed.

(** On any widget a gesture leaves the mask alone or writes the background
    or the current class index into some of its cells. *)
Lemma onselect_mask_any tk verts s :
  mask (_onselect tk verts s).2 = mask s ∨
  ∃ flags,
    mask (_onselect tk verts s).2 =
      NDArray (shape (mask s))
        (overwrite flags (if _erasing s then 0 else _cur_class_idx s)
           (data (mask s))).
Proof.
  unfold _onselect, paths_append, mbind, method_bind, read, lift, write, raise.
  destruct (new_path verts) as [p|e]; simpl; [|left; reflexivity].
  destruct (reshape _ _) as [ind|e]; simpl; [|left; reflexivity].
  unfold setitem_int, mbind, outcome_bind.
  destruct (_erasing s).
  - destruct (cast (mask_dtype s) 0) as [v|e] eqn:Hv; simpl; [|left; reflexivity].
    apply cast_returned in Hv as ->.
    destruct (setitem_where (mask s) ind 0) as [m|e] eqn:Hm; simpl;
      [|left; reflexivity].
    apply setitem_where_returned in Hm as [_ ->].
    assert (mask (set_mask
                    (if decide (shape ind = shape (mask s))
                     then NDArray (shape (mask s)) (overwrite (data ind) 0 (data (mask s)))
                     else mask s) (set_indices ind s)) = mask s ∨
            ∃ flags, mask (set_mask
                    (if decide (shape ind = shape (mask s))
                     then NDArray (shape (mask s)) (overwrite (data ind) 0 (data (mask s)))
                     else mask s) (set_indices ind s)) =
              NDArray (shape (mask s)) (overwrite flags 0 (data (mask s)))) as Hgoal.
    { simpl. destruct (decide _); eauto. }
    repeat case_match; simplify_eq/=; exact Hgoal.
  - destruct (cast (mask_dtype s) (_cur_class_idx s)) as [v|e] eqn:Hv; simpl;
      [|left; reflexivity].
    apply cast_returned in Hv as ->.
    destruct (setitem_where (mask s) ind (_cur_class_idx s)) as [m|e] eqn:Hm; simpl;
      [|left; reflexivity].
    apply setitem_where_returned in Hm as [_ ->].
    assert (mask (set_mask
                    (if decide (shape ind = shape (mask s))
                     then NDArray (shape (mask s))
                            (overwrite (data ind) (_cur_class_idx s) (data (mask s)))
                     else mask s) (set_indices ind s)) = mask s ∨
            ∃ flags, mask (set_mask
                    (if decide (shape ind = shape (mask s))
                     then NDArray (shape (mask s))
                            (overwrite (data ind) (_cur_class_idx s) (data (mask s)))
                     else mask s) (set_indices ind s)) =
              NDArray (shape (mask s))
                (overwrite flags (_cur_class_idx s) (data (mask s)))) as Hgoal.
    { simpl. destruct (decide _); eauto. }
    repeat case_match; simplify_eq/=; exact Hgoal.
Qed.

Lemma setitem_where_Forall {A} (P : A → Prop) (a a' : ndarray A) idx v :
  setitem_where a idx v = Returned a' → P v → Forall P (data a) → Forall P (data a').
Proof.
  intros [_ ->]%setitem_where_returned Hv Ha.
  destruct (decide _); [|exact Ha]. simpl. apply overwrite_Forall; assumption.
Qed.

(** On any widget a gesture writes nothing into the overlay but
    transparent pixels and colours of the table. *)
Lemma onselect_overlay_Forall (P : rgba → Prop) tk verts s :
  P transparent → Forall P (mask_colors s) → Forall P (data (_overlay s)) →
  Forall P (data (_overlay (_onselect tk verts s).2)).
Proof.
  intros Ht Hcolors Ho.
  unfold _onselect, paths_append, mbind, method_bind, read, lift, write, raise.
  destruct (new_path verts) as [p|e]; simpl; [|exact Ho].
  destruct (reshape _ _) as [ind|e]; simpl; [|exact Ho].
  destruct (_erasing s).
  - destruct (setitem_int _ _ _ _) as [m|e]; simpl; [|exact Ho].
    destruct (setitem_where (_overlay s) ind transparent) as [o|e] eqn:Hset; simpl;
      [|exact Ho].
    pose proof (setitem_where_Forall P _ _ _ _ Hset Ht Ho) as Ho'.
    repeat case_match; simplify_eq/=; exact Ho'.
  - destruct (setitem_int _ _ _ _) as [m|e]; simpl; [|exact Ho].
    destruct (getitem (mask_colors s) (_cur_class_idx s - 1)) as [c|e] eqn:Hc; simpl;
      [|exact Ho].
    destruct (setitem_where (_overlay s) ind c) as [o|e] eqn:Hset; simpl;
      [|exact Ho].
    assert (Hpc : P c).
    { rewrite Forall_forall in Hcolors. eapply Hcolors, getitem_elem_of, Hc. }
    pose proof (setitem_where_Forall P _ _ _ _ Hset Hpc Ho) as Ho'.
    repeat case_match; simplify_eq/=; exact Ho'.
Qed.

Lemma handle_labels tk e s :
  _n_classes s = Z.of_nat (length (_classes s)) →
  1 ≤ _cur_class_idx s ≤ _n_classes s →
  labels_in_range (_n_classes s) (mask s) →
  labels_in_range (_n_classes s) (mask (handle tk e s).2).
Proof.
  intros Hn Hidx Hl. destruct e as [val|val|verts]; simpl.
  - destruct (erasing_set_frame val s) as [b ->]. exact Hl.
  - destruct (current_class_set_frame val s) as [k ->]. exact Hl.
  - destruct (onselect_mask_any tk verts s) as [->|[flags ->]]; [exact Hl|].
    unfold labels_in_range in *. simpl. apply overwrite_Forall; [exact Hl|].
    destruct (_erasing s); lia.
Qed.

Lemma after_labels tk evs s :
  _n_classes s = Z.of_nat (length (_classes s)) →
  1 ≤ _cur_class_idx s ≤ _n_classes s →
  labels_in_range (_n_classes s) (mask s) →
  labels_in_range (_n_classes s) (mask (after tk evs s)).
Proof.
  revert s. induction evs as [|e evs IH]; intros s Hn Hidx Hl; simpl; [exact Hl|].
  destruct (handle_registry tk e s Hn Hidx) as (Hc & Hn' & Hidx').
  rewrite <- Hn'. apply IH.
  - congruence.
  - lia.
  - rewrite Hn'. apply handle_labels; assumption.
Qed.

Lemma init_labels tk a s :
  __init__ tk a = Returned s → seed_in_range a →
  labels_in_range (_n_classes s) (mask s).
Proof.
  intros Hinit Hrange.
  destruct (init_returned tk a s Hinit) as (_ & Hn & _ & _ & _ & Hm & _).
  rewrite Hm, Hn. unfold initial_mask, seed_in_range in *.
  destruct (arg_mask a) as [m|]; [exact Hrange|].
  unfold labels_in_range, np_zeros. simpl. apply Forall_replicate. lia.
Qed.

(** X3. When the seed mask holds only values in [0, N] (the default mask
    does), every cell of the label mask is in [0, N] after construction and
    after any sequence of events, [N] being the number of classes. *)
Theorem mask_labels_stay_in_range tk a s evs :
  __init__ tk a = Returned s → seed_ok a → seed_in_range a →
  Forall (λ k, 0 ≤ k ≤ Z.of_nat (length (registry (arg_classes a))))
    (data (mask (after tk evs s))).
Proof.
  intros Hinit _ Hrange.
  destruct (init_returned tk a s Hinit) as (Hcls & Hn & Hn1 & _ & _ & _ & _ & _ & Hidx & _).
  pose proof (after_labels tk evs s ltac:(congruence) ltac:(lia)
                (init_labels tk a s Hinit Hrange)) as H.
  unfold labels_in_range in H. rewrite Hn in H. exact H.
Qed.

Lemma palette_alpha tk colors a n :
  Forall (λ c, alpha c = a) (palette tk colors a n).
Proof.
  unfold palette. apply Forall_fmap, Forall_forall. intros c _. reflexivity.
Qed.

Lemma after_overlay_Forall (P : rgba → Prop) tk evs s :
  P transparent → Forall P (mask_colors s) → Forall P (data (_overlay s)) →
  Forall P (data (_overlay (after tk evs s))).
Proof.
  intros Ht. revert s. induction evs as [|e evs IH]; intros s Hcolors Ho; simpl;
    [exact Ho|].
  destruct (handle_config tk e s) as (_ & _ & _ & Hcol & _).
  apply IH; [rewrite Hcol; exact Hcolors|].
  destruct e as [val|val|verts]; simpl.
  - destruct (erasing_set_frame val s) as [b ->]. exact Ho.
  - destruct (current_class_set_frame val s) as [k ->]. exact Ho.
  - apply onselect_overlay_Forall; assumption.
Qed.

(** X4. The configured opacity overrides every alpha: after construction
    and after any sequence of events each entry of the colour table has
    alpha [mask_alpha], and each overlay pixel is either fully transparent
    or has alpha [mask_alpha] (seed mask values in [0, N]). *)
Theorem opacity_overrides_alpha tk a s evs :
  __init__ tk a = Returned s → seed_ok a → seed_in_range a →
  Forall (λ c, alpha c = arg_mask_alpha a) (mask_colors (after tk evs s)) ∧
  Forall (λ px, px = transparent ∨ alpha px = arg_mask_alpha a)
    (data (_overlay (after tk evs s))).
Proof.
  intros Hinit _ _.
  destruct (after_config tk evs s) as (_ & _ & _ & Hcol & _).
  destruct (init_returned tk a s Hinit) as (_ & _ & _ & Hpal & _ & _ & Hloop & _).
  assert (Hal : Forall (λ c, alpha c = arg_mask_alpha a) (mask_colors s)).
  { rewrite Hpal. apply palette_alpha. }
  split; [rewrite Hcol; exact Hal|].
  assert (Hweak : Forall (λ px, px = transparent ∨ alpha px = arg_mask_alpha a)
                    (mask_colors s)).
  { eapply Forall_impl; [exact Hal|]. simpl. auto. }
  apply after_overlay_Forall; [left; reflexivity|exact Hweak|].
  eapply overlay_loop_Forall; [|exact Hloop|left; reflexivity|exact Hweak|].
  - apply Forall_forall. intros i Hi%range_bounds. lia.
  - simpl. apply Forall_replicate. left. reflexivity.
Qed.

(** ** The selection history *)

Lemma indices_fit_current s : consistent s → indices_fit s → index_fits s.
Proof. intros Hs Hfit. apply Hfit, Hs. Qed.

Lemma handle_indices_fit tk e s : indices_fit s → indices_fit (handle tk e s).2.
Proof.
  intros Hfit k. destruct (handle_config tk e s) as (_ & _ & -> & _ & _ & _ & _ & _ & ->).
  apply Hfit.
Qed.

Lemma after_indices_fit tk evs s : indices_fit s → indices_fit (after tk evs s).
Proof.
  intros Hfit k. destruct (after_config tk evs s) as (_ & _ & -> & _ & _ & _ & _ & _ & ->).
  apply Hfit.
Qed.

Lemma init_indices_fit tk a s :
  __init__ tk a = Returned s → seed_holds_indices a → indices_fit s.
Proof.
  intros Hinit Hseed k.
  destruct (init_returned tk a s Hinit) as (_ & -> & _).
  destruct (init_returned_more tk a s Hinit) as (-> & _). apply Hseed.
Qed.

Lemma after_history tk evs s la le :
  consistent s → indices_fit s →
  _paths s = {[ "adding"%string := la; "erasing"%string := le ]} →
  _paths (after tk evs s) =
    {[ "adding"%string := la ++ gestures false (_erasing s) evs;
       "erasing"%string := le ++ gestures true (_erasing s) evs ]}.
Proof.
  revert s la le. induction evs as [|e evs IH]; intros s la le Hs Hfit Hp; simpl.
  { rewrite !app_nil_r. exact Hp. }
  pose proof (handle_consistent tk e s Hs) as Hs'.
  pose proof (handle_indices_fit tk e s Hfit) as Hfit'.
  destruct e as [val|val|verts]; simpl in *.
  - destruct val as [|b|z|q|name]; apply IH; assumption.
  - destruct (current_class_set_frame val s) as [k Hk]. rewrite Hk in *.
    rewrite (IH (set_cur_class_idx k s) la le Hs' Hfit' Hp). reflexivity.
  - destruct verts as [|v verts]; [apply IH; assumption|].
    destruct (onselect_run tk (v :: verts) s Hs ltac:(done)
                (or_intror (indices_fit_current s Hs Hfit)))
      as (c & l & _ & Hl & Hrun).
    rewrite Hrun in *. simpl in Hs', Hfit' |- *.
    match type of Hs' with consistent ?x => set (s' := x) in * end.
    assert (Her : _erasing s' = _erasing s) by reflexivity.
    destruct (_erasing s) eqn:E; simpl in Hl.
    + assert (l = le) as ->.
      { rewrite Hp, lookup_insert_ne, lookup_singleton_eq in Hl by done.
        congruence. }
      rewrite (IH s' la (le ++ [MkPath (v :: verts)]) Hs' Hfit').
      * rewrite Her. simpl. rewrite <- app_assoc. reflexivity.
      * subst s'. simpl. rewrite Hp, insert_insert_ne by done.
        rewrite insert_singleton_eq. reflexivity.
    + assert (l = la) as ->.
      { rewrite Hp, lookup_insert_eq in Hl. congruence. }
      rewrite (IH s' (la ++ [MkPath (v :: verts)]) le Hs' Hfit').
      * rewrite Her. simpl. rewrite <- app_assoc. reflexivity.
      * subst s'. simpl. rewrite Hp, insert_insert_eq. reflexivity.
Qed.

(** X2. On a widget constructed with a mask of the image's shape whose
    element type holds every class index (the default mask is one),
    [get_paths] returns exactly two lists: under "adding" the polygons of
    the gestures completed while [erasing] was false, under "erasing" those
    completed while it was true, each in the order in which the gestures
    were made; writes, failed ones included, add nothing, and neither does a
    gesture without a vertex. *)
Theorem history_is_chronological tk a s evs :
  __init__ tk a = Returned s → seed_ok a →
  shape (initial_mask a) = arg_img a → seed_holds_indices a →
  (get_paths (after tk evs s)).1 =
    Returned {[ "adding"%string := gestures false false evs;
                "erasing"%string := gestures true false evs ]}.
Proof.
  intros Hinit Hseed Hshape Hfit.
  pose proof (init_consistent tk a s Hinit Hseed Hshape) as Hs.
  pose proof (init_indices_fit tk a s Hinit Hfit) as Hfit'.
  destruct (init_returned tk a s Hinit)
    as (_ & _ & _ & _ & _ & _ & _ & _ & _ & Her & Hp).
  unfold get_paths, read. simpl.
  rewrite (after_history tk evs s [] [] Hs Hfit' Hp), Her. reflexivity.
Qed.

(** ** The same polygon twice *)

Lemma overwrite_absorb {A} flags (v w : A) l :
  overwrite flags v (overwrite flags w l) = overwrite flags v l.
Proof.
  revert l. induction flags as [|b flags IH]; intros [|x l]; simpl; try done.
  unfold overwrite in *. simpl. rewrite IH. destruct b; reflexivity.
Qed.

Lemma after_writes_frame tk evs s :
  forallb is_write evs = true →
  mask (after tk evs s) = mask s ∧ _overlay (after tk evs s) = _overlay s.
Proof.
  revert s. induction evs as [|e evs IH]; intros s; simpl; [done|].
  intros [He Hevs]%andb_prop.
  destruct (IH (handle tk e s).2 Hevs) as (-> & ->).
  destruct (write_frame tk e s He) as (-> & -> & _). done.
Qed.

Lemma write_same_mode tk e s s' :
  same_mode s s' → is_write e = true →
  same_mode (handle tk e s).2 (handle tk e s').2.
Proof.
  intros (Hc & Hn & Hcol & Himg & Hpix & Hidx & Her) He.
  destruct e as [val|val|verts]; simpl; [| |discriminate].
  - destruct val; simpl; done.
  - destruct val as [|b|z|q|name]; try done.
    + unfold current_class_set, mbind, method_bind, read, write, raise. simpl.
      rewrite <- Hn. destruct (_ && _); simpl; done.
    + rewrite !current_class_set_int, <- Hn. destruct (_ && _); simpl; done.
    + rewrite !current_class_set_str, <- Hc.
      destruct (decide _); simpl; [|done].
      destruct (index _ _); simpl; done.
Qed.

Lemma after_writes_same_mode tk evs s s' :
  same_mode s s' → forallb is_write evs = true →
  same_mode (after tk evs s) (after tk evs s').
Proof.
  revert s s'. induction evs as [|e evs IH]; intros s s' Hm; simpl; [done|].
  intros [He Hevs]%andb_prop. apply IH; [|exact Hevs].
  apply write_same_mode; assumption.
Qed.

(** X1. On a consistent widget whose mask holds every class index, when
    the same polygon (of at least one vertex) is drawn twice, with nothing
    but writes to [erasing] and [current_class] in between, the first
    gesture leaves no trace in the buffers: mask and overlay are what the
    second gesture alone would have produced. In particular drawing a
    polygon twice gives the same mask and overlay as drawing it once, and
    erasing a polygon undoes whatever an earlier gesture wrote inside it. *)
Theorem same_polygon_last_wins tk verts mid s :
  consistent s → indices_fit s → verts ≠ [] → forallb is_write mid = true →
  mask (after tk (Select verts :: mid ++ [Select verts]) s) =
    mask (after tk (mid ++ [Select verts]) s) ∧
  _overlay (after tk (Select verts :: mid ++ [Select verts]) s) =
    _overlay (after tk (mid ++ [Select verts]) s).
Proof.
  intros Hs Hfit Hverts Hmid. unfold after. simpl. rewrite !foldl_snoc.
  fold (after tk mid s). fold (after tk mid (_onselect tk verts s).2).
  simpl.
  pose proof (indices_fit_current s Hs Hfit) as Hfit0.
  destruct (onselect_frame tk verts s Hs Hverts (or_intror Hfit0))
    as (s1 & Hrun1 & Hs1 & Himg & Her & Hn & Hcol & Hidx & Hdt).
  destruct (onselect_run tk verts s Hs Hverts (or_intror Hfit0))
    as (c0 & l0 & _ & _ & Hrun1').
  destruct (onselect_config tk verts s) as (_ & Hcls & _ & _ & _ & _ & Hpix & _).
  rewrite Hrun1 in Hcls, Hpix |- *. simpl in Hcls, Hpix |- *.
  assert (Hm1 : mask s1 = NDArray (shape (mask s))
                  (overwrite (selection tk verts s)
                     (if _erasing s then 0 else _cur_class_idx s) (data (mask s)))
                ∧ _overlay s1 = NDArray (shape (_overlay s))
                  (overwrite (selection tk verts s)
                     (if _erasing s then transparent else c0) (data (_overlay s)))).
  { rewrite Hrun1 in Hrun1'. injection Hrun1' as ->. done. }
  destruct Hm1 as [Hm1 Ho1].
  assert (Hfit1 : indices_fit s1).
  { intros k. rewrite Hn, Hdt. apply Hfit. }
  assert (Hsame : same_mode s s1).
  { unfold same_mode. rewrite Hcls, Hn, Hcol, Himg, Hpix, Hidx, Her. done. }
  pose proof (after_writes_same_mode tk mid s s1 Hsame Hmid)
    as (Hc' & Hn' & Hcol' & Himg' & Hpix' & Hidx' & Her').
  destruct (after_writes_frame tk mid s Hmid) as [Hma Hoa].
  destruct (after_writes_frame tk mid s1 Hmid) as [Hmb Hob].
  destruct (after_config tk mid s) as (_ & _ & _ & _ & _ & _ & Hpa & _).
  pose proof (after_consistent tk mid s Hs) as Hsa.
  pose proof (after_consistent tk mid s1 Hs1) as Hsb.
  pose proof (indices_fit_current _ Hsa (after_indices_fit tk mid s Hfit)) as Hfa.
  pose proof (indices_fit_current _ Hsb (after_indices_fit tk mid s1 Hfit1)) as Hfb.
  destruct (onselect_run tk verts _ Hsa Hverts (or_intror Hfa))
    as (ca & la & Hca & _ & ->).
  destruct (onselect_run tk verts _ Hsb Hverts (or_intror Hfb))
    as (cb & lb & Hcb & _ & ->).
  assert (cb = ca) as ->.
  { unfold color_table in *. rewrite <- Hcol', <- Hidx' in Hcb. congruence. }
  simpl. unfold selection. rewrite <- Hpix', <- Her', <- Hidx', Hpa.
  rewrite Hma, Hoa, Hmb, Hob, Hm1, Ho1. simpl.
  unfold selection. rewrite !overwrite_absorb. done.
Qed.

(** ** The pixel coordinates and [indices] *)

(** X14. [pix] of a constructed widget lists the cells of the image row by
    row: it has one entry per cell, and the entry for row [r] and column
    [c] is the point with x = [c] and y = [r]; no event changes it. *)
Theorem pix_lists_cells_row_by_row tk a s evs r c :
  __init__ tk a = Returned s →
  (r < (arg_img a).1)%nat → (c < (arg_img a).2)%nat →
  length (pix (after tk evs s)) = ((arg_img a).1 * (arg_img a).2)%nat ∧
  pix (after tk evs s) !! (r * (arg_img a).2 + c)%nat
    = Some (Z.of_nat c, Z.of_nat r).
Proof.
  intros Hinit Hr Hc.
  destruct (after_config tk evs s) as (_ & _ & _ & _ & _ & _ & -> & _).
  destruct (init_returned tk a s Hinit) as (_ & _ & _ & _ & _ & _ & _ & -> & _).
  split; [apply pixel_grid_length|].
  destruct (arg_img a) as [h w]. apply pixel_grid_lookup; assumption.
Qed.

(** X15. On a widget constructed with a mask of the image's shape whose
    element type holds every class index, a gesture of at least one vertex
    never raises, whatever events came before, and it leaves in [indices]
    an array of the image's shape whose cell in row [r] and column [c] tells
    whether the polygon contains the pixel with x = [c] and y = [r]. *)
Theorem indices_record_gesture tk a s evs verts :
  __init__ tk a = Returned s → seed_ok a →
  shape (initial_mask a) = arg_img a → seed_holds_indices a → verts ≠ [] →
  ∃ s' ind,
    _onselect tk verts (after tk evs s) = (Returned tt, s') ∧
    indices s' = Some ind ∧
    shape ind = arg_img a ∧
    ∀ r c, (r < (arg_img a).1)%nat → (c < (arg_img a).2)%nat →
      cell ind r c = Some (inside tk verts r c).
Proof.
  intros Hinit Hseed Hshape Hfit Hverts.
  pose proof (after_consistent tk evs s (init_consistent tk a s Hinit Hseed Hshape))
    as Hs.
  pose proof (indices_fit_current _ Hs
                (after_indices_fit tk evs s (init_indices_fit tk a s Hinit Hfit)))
    as Hfits.
  destruct (after_config tk evs s) as (_ & _ & _ & _ & Himg & _).
  destruct (init_returned tk a s Hinit) as (_ & _ & _ & _ & Himg' & _).
  destruct (onselect_run tk verts _ Hs Hverts (or_intror Hfits))
    as (c0 & l0 & _ & _ & Hrun).
  eexists _, _. split; [exact Hrun|]. simpl. split; [reflexivity|].
  pose proof (mask_shape _ Hs) as Hsh. split; [simpl; congruence|].
  intros r c Hr Hc. rewrite cell_lookup by (simpl; rewrite Hsh, Himg, Himg'; done).
  simpl. rewrite Hsh. apply selection_cell; [exact Hs|exact Hverts|].
  unfold in_grid. rewrite Himg, Himg'. done.
Qed.

(** ** Arguments the constructor rejects *)

Lemma range_nonempty n : 0 ≤ n → range (n + 1) ≠ [].
Proof.
  intros Hn E. assert (Hin : 0 ∈ range (n + 1)) by (apply range_bounds; lia).
  rewrite E in Hin. by apply not_elem_of_nil in Hin.
Qed.

(** X7. A two-dimensional seed mask with no axis of length 0 whose shape
    differs from the image's makes the constructor raise [IndexError],
    whatever the other arguments are: the first turn of the overlay loop
    indexes the overlay with a boolean array of the mask's shape. *)
Theorem misshapen_seed_raises tk a m :
  arg_mask a = Some m → (shape m).1 ≠ 0%nat → (shape m).2 ≠ 0%nat →
  shape m ≠ arg_img a →
  __init__ tk a = Raised IndexError.
Proof.
  intros Hm Hh Hw Hsh. unfold __init__.
  destruct (overlay_loop _ _ _ _) as [o|e] eqn:Ho.
  - exfalso. apply overlay_loop_returned in Ho as (_ & Hne & _).
    2:{ apply Forall_forall. intros i Hi%range_bounds. lia. }
    apply Hsh. unfold initial_mask in Hne. rewrite Hm in Hne.
    apply (boolean_index_fits_shape (shape m) (arg_img a)); [|exact Hh|exact Hw].
    apply Hne, range_nonempty. lia.
  - apply overlay_loop_raised in Ho as ->. reflexivity.
Qed.

(** X8. With no class at all (an empty list, or a count of zero or less)
    the constructor raises [ValueError], from its own write of 1 to
    [current_class], once the overlay is built and the mouse buttons are
    resolved. *)
Theorem no_class_raises tk a :
  (arg_classes a = ClassList [] ∨ ∃ n, arg_classes a = ClassCount n ∧ n ≤ 0) →
  shape (initial_mask a) = arg_img a →
  (∃ k, resolve_button (arg_pan_mousebutton a) = Returned k) →
  (∃ k, resolve_button (arg_lasso_mousebutton a) = Returned k) →
  __init__ tk a = Raised ValueError.
Proof.
  intros Hcls Hsh [pan Hpan] [las Hlas].
  assert (Hreg : registry (arg_classes a) = []).
  { destruct Hcls as [->|(n & -> & Hn)]; [reflexivity|].
    simpl. unfold range. replace (Z.to_nat n) with 0%nat by lia. reflexivity. }
  unfold __init__. rewrite Hreg. simpl length.
  destruct (overlay_loop_returns
              (palette tk (arg_mask_colors a) (arg_mask_alpha a) (Z.of_nat 0))
              (initial_mask a) (range (Z.of_nat 0 + 1))
              (np_zeros transparent (arg_img a))) as [o ->].
  { rewrite Hsh. reflexivity. }
  { apply Forall_forall. intros i Hi%range_bounds. lia. }
  cbn [mbind outcome_bind].
  destruct (imshow_rgba o) as [[]|e] eqn:Hshow.
  - cbn [mbind outcome_bind]. rewrite Hpan, Hlas. cbn [mbind outcome_bind].
    rewrite current_class_set_int. reflexivity.
  - unfold imshow_rgba in Hshow. destruct (_ =? _)%nat; [|discriminate].
    injection Hshow as <-. reflexivity.
Qed.

Lemma resolve_button_unknown name :
  lower name ≠ "left"%string → lower name ≠ "middle"%string →
  lower name ≠ "right"%string →
  resolve_button (ButtonName name) = Raised KeyError.
Proof.
  intros H1 H2 H3. unfold resolve_button, button_dict.
  rewrite !lookup_insert_ne, lookup_singleton_ne by done. reflexivity.
Qed.

(** X9. A mouse button given by a name that is not "left", "middle" or
    "right" in any mix of upper and lower case makes the constructor raise
    [KeyError], provided the overlay could be built and shown (mask of the
    image's shape, at least as many colours as classes, an image with
    cells); the pan button is looked up before the lasso button. *)
Theorem unknown_button_raises tk a name :
  lower name ≠ "left"%string → lower name ≠ "middle"%string →
  lower name ≠ "right"%string →
  shape (initial_mask a) = arg_img a →
  shape_size (arg_img a) ≠ 0%nat →
  Z.of_nat (length (registry (arg_classes a))) ≤
    Z.of_nat (length (palette tk (arg_mask_colors a) (arg_mask_alpha a)
                        (Z.of_nat (length (registry (arg_classes a)))))) →
  arg_pan_mousebutton a = ButtonName name ∨
  ((∃ k, resolve_button (arg_pan_mousebutton a) = Returned k) ∧
   arg_lasso_mousebutton a = ButtonName name) →
  __init__ tk a = Raised KeyError.
Proof.
  intros H1 H2 H3 Hsh Himg Hcol Hbutton.
  pose proof (resolve_button_unknown name H1 H2 H3) as Hkey.
  unfold __init__.
  destruct (overlay_loop_returns
              (palette tk (arg_mask_colors a) (arg_mask_alpha a)
                 (Z.of_nat (length (registry (arg_classes a)))))
              (initial_mask a)
              (range (Z.of_nat (length (registry (arg_classes a))) + 1))
              (np_zeros transparent (arg_img a))) as [o Ho].
  { rewrite Hsh. reflexivity. }
  { apply Forall_forall. intros i Hi%range_bounds. split; [lia|].
    etrans; [|exact Hcol]. lia. }
  rewrite Ho. cbn [mbind outcome_bind].
  apply overlay_loop_returned in Ho as (Hosh & _);
    [|apply Forall_forall; intros i Hi%range_bounds; lia].
  rewrite imshow_rgba_returns by (rewrite Hosh; exact Himg).
  cbn [mbind outcome_bind].
  destruct Hbutton as [->|[[k ->] ->]].
  - rewrite Hkey. reflexivity.
  - cbn [mbind outcome_bind]. rewrite Hkey. reflexivity.
Qed.

Lemma default_palette_length tk alpha n :
  0 ≤ n →
  Z.of_nat (length (palette tk None alpha n)) =
    Z.min n (Z.of_nat (length (default_table tk n))).
Proof.
  intros Hn. unfold palette, default_table.
  destruct (n <=? 10); rewrite length_fmap, length_take; lia.
Qed.

(** X10. Without explicit colours the colour table is cut from the
    Tableau table for up to ten classes and from the XKCD table for more.
    If that table holds fewer colours than there are classes the
    constructor raises [IndexError]; otherwise (at least one class, mask of
    the image's shape, resolvable buttons, an image with cells) it returns
    and the colour table is the first [N] colours of the table with the
    configured alpha. *)
Theorem default_colors_run_out tk a :
  arg_mask_colors a = None →
  shape (initial_mask a) = arg_img a →
  1 ≤ Z.of_nat (length (registry (arg_classes a))) →
  (∃ k, resolve_button (arg_pan_mousebutton a) = Returned k) →
  (∃ k, resolve_button (arg_lasso_mousebutton a) = Returned k) →
  let n := Z.of_nat (length (registry (arg_classes a))) in
  (Z.of_nat (length (default_table tk n)) < n →
   __init__ tk a = Raised IndexError) ∧
  (n ≤ Z.of_nat (length (default_table tk n)) →
   shape_size (arg_img a) ≠ 0%nat →
   ∃ s, __init__ tk a = Returned s ∧
        mask_colors s =
          with_alpha (arg_mask_alpha a) <$> take (Z.to_nat n) (default_table tk n)).
Proof.
  intros Hnone Hsh Hn Hpan Hlas n.
  pose proof (default_palette_length tk (arg_mask_alpha a) n ltac:(lia)) as Hlen.
  split.
  - intros Hshort. apply init_short_palette. rewrite Hnone. fold n. lia.
  - intros Hlong Himg. destruct (init_returns tk a) as [s Hs]; try assumption.
    { rewrite Hnone. fold n. lia. }
    exists s. split; [exact Hs|].
    apply init_returned in Hs as (_ & Hn' & _ & -> & _).
    rewrite Hnone, Hn'. fold n. unfold palette, default_table.
    destruct (n <=? 10); reflexivity.
Qed.

(** ** A fresh widget *)

Lemma overlay_loop_zeros colors sh todo o' :
  Forall (λ i, 0 ≤ i) todo → 0 ∈ todo →
  overlay_loop colors (np_zeros 0 sh) todo (np_zeros transparent sh) = Returned o' →
  o' = np_zeros transparent sh.
Proof.
  intros Hpos Hzero Hloop.
  apply overlay_loop_returned in Hloop as (Hsh & _ & _ & Hlen & Hcells);
    [|exact Hpos].
  specialize (Hcells eq_refl).
  simpl in *. rewrite !length_replicate in Hlen. specialize (Hlen eq_refl).
  destruct o' as [sh' cells]. simpl in *. subst sh'. unfold np_zeros. f_equal.
  apply (list_eq_same_length _ _ (shape_size sh)); [apply length_replicate|exact Hlen|].
  intros i x y Hi Hx Hy. apply lookup_replicate in Hy as [-> _].
  destruct (Hcells i 0 transparent) as (y & Hy & Hcase).
  { apply lookup_replicate_2. exact Hi. }
  { apply lookup_replicate_2. exact Hi. }
  rewrite decide_True in Hcase by exact Hzero. simpl in Hcase. congruence.
Qed.

(** X11. A widget constructed without a seed mask starts blank and in
    adding mode: the mask is all zeros and the overlay all transparent, both
    of the image's shape; the current class index is 1, so that
    [current_class] reads the first identifier of the registry; [erasing]
    reads false; and both histories are empty. *)
Theorem fresh_widget_is_blank tk a s :
  __init__ tk a = Returned s → arg_mask a = None →
  mask s = np_zeros 0 (arg_img a) ∧
  _overlay s = np_zeros transparent (arg_img a) ∧
  _cur_class_idx s = 1 ∧
  (∃ first, registry (arg_classes a) !! 0%nat = Some first ∧
            (current_class s).1 = Returned first) ∧
  (erasing s).1 = Returned false ∧
  (get_paths s).1 = Returned {[ "adding"%string := []; "erasing"%string := [] ]}.
Proof.
  intros Hinit Hnone.
  destruct (init_returned tk a s Hinit)
    as (Hcls & Hn & Hn1 & _ & _ & Hm & Hloop & _ & Hidx & Her & Hp).
  assert (Hm0 : mask s = np_zeros 0 (arg_img a)).
  { rewrite Hm. unfold initial_mask. rewrite Hnone. reflexivity. }
  split; [exact Hm0|]. split.
  { rewrite Hm0 in Hloop. eapply overlay_loop_zeros; [| |exact Hloop].
    - apply Forall_forall. intros i Hi%range_bounds. lia.
    - apply range_bounds. lia. }
  split; [exact Hidx|]. split.
  { destruct (lookup_lt_is_Some_2 (registry (arg_classes a)) 0) as [first Hf]; [lia|].
    exists first. split; [exact Hf|].
    rewrite (current_class_reads s first); [reflexivity|lia|].
    rewrite Hcls, Hidx. exact Hf. }
  unfold erasing, get_paths, read. simpl. rewrite Her, Hp. done.
Qed.

(** ** More on [current_class] *)

Lemma index_found (l : list class_id) (i : nat) (x : class_id) :
  l !! i = Some x → (∀ j : nat, (j < i)%nat → l !! j ≠ Some x) →
  index x l = Returned (Z.of_nat i).
Proof.
  intros Hi Hfirst. unfold index.
  destruct (list_find (λ c, c = x) l) as [[j y]|] eqn:E.
  - apply list_find_Some in E as (Hj & -> & Hbefore).
    destruct (Nat.lt_trichotomy i j) as [Hlt|[->|Hgt]].
    + exfalso. exact (Hbefore i x Hi Hlt eq_refl).
    + reflexivity.
    + exfalso. exact (Hfirst j Hgt Hj).
  - apply list_find_None in E. rewrite Forall_forall in E.
    exfalso. eapply E; [|reflexivity]. eapply list_elem_of_lookup_2. exact Hi.
Qed.

(** X12. Writing a string to [current_class] selects the first position of
    the registry that holds it: if position [i] is the first one with the
    identifier [name], the write returns and the current class index
    becomes [i + 1], also when the name occurs again later. *)
Theorem name_selects_first_occurrence s (i : nat) name :
  _classes s !! i = Some (IdStr name) →
  (∀ j : nat, (j < i)%nat → _classes s !! j ≠ Some (IdStr name)) →
  current_class_set (PyStr name) s =
    (Returned tt, set_cur_class_idx (Z.of_nat i + 1) s).
Proof.
  intros Hi Hfirst. rewrite current_class_set_str.
  rewrite decide_True by (eapply list_elem_of_lookup_2, Hi).
  rewrite (index_found _ i) by assumption. reflexivity.
Qed.

(** X13. A [bool] written to [current_class] is taken as the integer it
    stands for, [bool] being [Integral]: [True] selects class index 1
    whenever there is at least one class, and [False] raises [ValueError]
    and changes nothing. *)
Theorem bool_is_an_index s :
  1 ≤ _n_classes s →
  current_class_set (PyBool true) s = (Returned tt, set_cur_class_idx 1 s) ∧
  current_class_set (PyBool false) s = (Raised ValueError, s).
Proof.
  intros Hn. split; [|reflexivity].
  unfold current_class_set, mbind, method_bind, read, write, raise. simpl.
  destruct (Z.ltb_spec 1 (_n_classes s + 1)); [reflexivity|lia].
Qed.

Lemma registry_count_lookup n (k : nat) :
  Z.of_nat k < n → registry (ClassCount n) !! k = Some (IdInt (Z.of_nat k)).
Proof.
  intros Hk. simpl. unfold range.
  rewrite !list_lookup_fmap, lookup_seq_lt by lia. reflexivity.
Qed.

(** X16. With an integer count [n] the identifiers are [0 .. n-1] while
    the indices written to [current_class] are [1 .. n]: on a widget
    constructed with a count, writing the index [i] and reading
    [current_class] back returns the identifier [i - 1]. *)
Theorem count_identifiers_are_zero_based tk a s n i :
  arg_classes a = ClassCount n → __init__ tk a = Returned s →
  1 ≤ i ≤ n →
  ((current_class_set (PyInt i);; current_class) s).1 = Returned (IdInt (i - 1)).
Proof.
  intros Hcount Hinit Hi.
  destruct (init_returned tk a s Hinit) as (Hcls & Hn & _).
  rewrite Hcount in Hcls, Hn.
  pose proof (registry_length (ClassCount n)) as Hlen. simpl in Hlen.
  assert (Hset : current_class_set (PyInt i) s =
                 (Returned tt, set_cur_class_idx i s)).
  { apply current_class_set_index. simpl in Hn. lia. }
  rewrite (bind_returned _ _ s tt _ Hset).
  rewrite (current_class_reads _ (IdInt (i - 1))); [reflexivity|simpl; lia|].
  simpl _classes. simpl _cur_class_idx. rewrite Hcls.
  rewrite registry_count_lookup by lia. f_equal. f_equal. lia.
Qed.

(** ** The further properties on the small instances *)

Lemma same_polygon_last_wins_witness :
  consistent demo_seeded ∧ indices_fit demo_seeded ∧ centre ≠ [] ∧
  forallb is_write [SetErasing (PyBool true); SetCurrentClass (PyInt 9)] = true ∧
  mask (after demo_toolkit
          (Select centre
             :: [SetErasing (PyBool true); SetCurrentClass (PyInt 9)]
             ++ [Select centre]) demo_seeded) =
    mask (after demo_toolkit
            ([SetErasing (PyBool true); SetCurrentClass (PyInt 9)]
               ++ [Select centre]) demo_seeded) ∧
  _overlay (after demo_toolkit
              (Select centre
                 :: [SetErasing (PyBool true); SetCurrentClass (PyInt 9)]
                 ++ [Select centre]) demo_seeded) =
    _overlay (after demo_toolkit
                ([SetErasing (PyBool true); SetCurrentClass (PyInt 9)]
                   ++ [Select centre]) demo_seeded).
Proof.
  assert (H1 : consistent demo_seeded) by consistent_instance.
  assert (H2 : indices_fit demo_seeded).
  { intros k Hk. change (1 ≤ k ≤ 2) in Hk. apply cast_small. lia. }
  assert (H3 : centre ≠ []) by discriminate.
  assert (H4 : forallb is_write
                 [SetErasing (PyBool true); SetCurrentClass (PyInt 9)] = true)
    by reflexivity.
  split; [exact H1|]. split; [exact H2|]. split; [exact H3|]. split; [exact H4|].
  exact (same_polygon_last_wins demo_toolkit centre
           [SetErasing (PyBool true); SetCurrentClass (PyInt 9)] demo_seeded
           H1 H2 H3 H4).
Defined.

Lemma history_is_chronological_witness :
  __init__ demo_toolkit seeded_args = Returned demo_seeded ∧
  seed_ok seeded_args ∧
  shape (initial_mask seeded_args) = arg_img seeded_args ∧
  seed_holds_indices seeded_args ∧
  (get_paths (after demo_toolkit (Select [] :: session) demo_seeded)).1 =
    Returned {[ "adding"%string := gestures false false (Select [] :: session);
                "erasing"%string := gestures true false (Select [] :: session) ]}.
Proof.
  assert (H1 : __init__ demo_toolkit seeded_args = Returned demo_seeded)
    by (vm_compute; reflexivity).
  assert (H2 : seed_ok seeded_args) by (vm_compute; reflexivity).
  assert (H3 : shape (initial_mask seeded_args) = arg_img seeded_args)
    by reflexivity.
  assert (H4 : seed_holds_indices seeded_args).
  { intros k Hk. change (1 ≤ k ≤ 2) in Hk. apply cast_small. lia. }
  split; [exact H1|]. split; [exact H2|]. split; [exact H3|]. split; [exact H4|].
  exact (history_is_chronological demo_toolkit seeded_args demo_seeded
           (Select [] :: session) H1 H2 H3 H4).
Defined.

Lemma mask_labels_stay_in_range_witness :
  __init__ demo_toolkit seeded_args = Returned demo_seeded ∧
  seed_ok seeded_args ∧ seed_in_range seeded_args ∧
  Forall (λ k, 0 ≤ k ≤ Z.of_nat (length (registry (arg_classes seeded_args))))
    (data (mask (after demo_toolkit session demo_seeded))).
Proof.
  assert (H1 : __init__ demo_toolkit seeded_args = Returned demo_seeded)
    by (vm_compute; reflexivity).
  assert (H2 : seed_ok seeded_args) by (vm_compute; reflexivity).
  assert (H3 : seed_in_range seeded_args) by compute_done.
  split; [exact H1|]. split; [exact H2|]. split; [exact H3|].
  exact (mask_labels_stay_in_range demo_toolkit seeded_args demo_seeded session
           H1 H2 H3).
Defined.

Lemma opacity_overrides_alpha_witness :
  __init__ demo_toolkit seeded_args = Returned demo_seeded ∧
  seed_ok seeded_args ∧ seed_in_range seeded_args ∧
  Forall (λ c, alpha c = arg_mask_alpha seeded_args)
    (mask_colors (after demo_toolkit session demo_seeded)) ∧
  Forall (λ px, px = transparent ∨ alpha px = arg_mask_alpha seeded_args)
    (data (_overlay (after demo_toolkit session demo_seeded))).
Proof.
  assert (H1 : __init__ demo_toolkit seeded_args = Returned demo_seeded)
    by (vm_compute; reflexivity).
  assert (H2 : seed_ok seeded_args) by (vm_compute; reflexivity).
  assert (H3 : seed_in_range seeded_args) by compute_done.
  split; [exact H1|]. split; [exact H2|]. split; [exact H3|].
  exact (opacity_overrides_alpha demo_toolkit seeded_args demo_seeded session
           H1 H2 H3).
Defined.

Lemma writes_keep_buffers_witness :
  forallb is_write
    [SetErasing (PyBool true); SetCurrentClass (PyStr "nucleus");
     SetErasing PyNone] = true ∧
  mask (after demo_toolkit
          [SetErasing (PyBool true); SetCurrentClass (PyStr "nucleus");
           SetErasing PyNone] demo_named) = mask demo_named ∧
  _overlay (after demo_toolkit
              [SetErasing (PyBool true); SetCurrentClass (PyStr "nucleus");
               SetErasing PyNone] demo_named) = _overlay demo_named ∧
  (get_paths (after demo_toolkit
                [SetErasing (PyBool true); SetCurrentClass (PyStr "nucleus");
                 SetErasing PyNone] demo_named)).1 = (get_paths demo_named).1 ∧
  indices (after demo_toolkit
             [SetErasing (PyBool true); SetCurrentClass (PyStr "nucleus");
              SetErasing PyNone] demo_named) = indices demo_named.
Proof.
  split; [reflexivity|].
  exact (writes_keep_buffers demo_toolkit
           [SetErasing (PyBool true); SetCurrentClass (PyStr "nucleus");
            SetErasing PyNone] demo_named eq_refl).
Defined.

Lemma misshapen_seed_raises_witness :
  arg_mask misshapen_args = Some (NDArray (2, 2)%nat [0; 1; 1; 0]) ∧
  (shape (NDArray (2, 2)%nat [0; 1; 1; 0])).1 ≠ 0%nat ∧
  (shape (NDArray (2, 2)%nat [0; 1; 1; 0])).2 ≠ 0%nat ∧
  shape (NDArray (2, 2)%nat [0; 1; 1; 0]) ≠ arg_img misshapen_args ∧
  __init__ demo_toolkit misshapen_args = Raised IndexError.
Proof.
  assert (H1 : arg_mask misshapen_args = Some (NDArray (2, 2)%nat [0; 1; 1; 0]))
    by reflexivity.
  assert (H2 : (shape (NDArray (2, 2)%nat [0; 1; 1; 0])).1 ≠ 0%nat)
    by (simpl; lia).
  assert (H3 : (shape (NDArray (2, 2)%nat [0; 1; 1; 0])).2 ≠ 0%nat)
    by (simpl; lia).
  assert (H4 : shape (NDArray (2, 2)%nat [0; 1; 1; 0]) ≠ arg_img misshapen_args)
    by (simpl; discriminate).
  split; [exact H1|]. split; [exact H2|]. split; [exact H3|]. split; [exact H4|].
  exact (misshapen_seed_raises demo_toolkit misshapen_args _ H1 H2 H3 H4).
Defined.

Lemma no_class_raises_witness :
  (arg_classes classless_args = ClassList [] ∨
   ∃ n, arg_classes classless_args = ClassCount n ∧ n ≤ 0) ∧
  shape (initial_mask classless_args) = arg_img classless_args ∧
  (∃ k, resolve_button (arg_pan_mousebutton classless_args) = Returned k) ∧
  (∃ k, resolve_button (arg_lasso_mousebutton classless_args) = Returned k) ∧
  __init__ demo_toolkit classless_args = Raised ValueError.
Proof.
  assert (H1 : arg_classes classless_args = ClassList [] ∨
               ∃ n, arg_classes classless_args = ClassCount n ∧ n ≤ 0)
    by (left; reflexivity).
  assert (H2 : shape (initial_mask classless_args) = arg_img classless_args)
    by reflexivity.
  assert (H3 : ∃ k, resolve_button (arg_pan_mousebutton classless_args) = Returned k)
    by (eexists; vm_compute; reflexivity).
  assert (H4 : ∃ k, resolve_button (arg_lasso_mousebutton classless_args) = Returned k)
    by (eexists; vm_compute; reflexivity).
  repeat (split; [assumption|]).
  exact (no_class_raises demo_toolkit classless_args H1 H2 H3 H4).
Defined.

Lemma unknown_button_raises_witness :
  lower "fourth" ≠ "left"%string ∧ lower "fourth" ≠ "middle"%string ∧
  lower "fourth" ≠ "right"%string ∧
  shape (initial_mask fourth_button_args) = arg_img fourth_button_args ∧
  shape_size (arg_img fourth_button_args) ≠ 0%nat ∧
  Z.of_nat (length (registry (arg_classes fourth_button_args))) ≤
    Z.of_nat (length (palette demo_toolkit (arg_mask_colors fourth_button_args)
                        (arg_mask_alpha fourth_button_args)
                        (Z.of_nat (length (registry (arg_classes fourth_button_args)))))) ∧
  (arg_pan_mousebutton fourth_button_args = ButtonName "fourth" ∨
   ((∃ k, resolve_button (arg_pan_mousebutton fourth_button_args) = Returned k) ∧
    arg_lasso_mousebutton fourth_button_args = ButtonName "fourth")) ∧
  __init__ demo_toolkit fourth_button_args = Raised KeyError.
Proof.
  assert (H1 : lower "fourth" ≠ "left"%string) by (vm_compute; discriminate).
  assert (H2 : lower "fourth" ≠ "middle"%string) by (vm_compute; discriminate).
  assert (H3 : lower "fourth" ≠ "right"%string) by (vm_compute; discriminate).
  assert (H4 : shape (initial_mask fourth_button_args) = arg_img fourth_button_args)
    by reflexivity.
  assert (H5 : shape_size (arg_img fourth_button_args) ≠ 0%nat)
    by (vm_compute; discriminate).
  assert (H6 : Z.of_nat (length (registry (arg_classes fourth_button_args))) ≤
    Z.of_nat (length (palette demo_toolkit (arg_mask_colors fourth_button_args)
                        (arg_mask_alpha fourth_button_args)
                        (Z.of_nat (length (registry (arg_classes fourth_button_args)))))))
    by (vm_compute; intros ?; discriminate).
  assert (H7 : arg_pan_mousebutton fourth_button_args = ButtonName "fourth" ∨
   ((∃ k, resolve_button (arg_pan_mousebutton fourth_button_args) = Returned k) ∧
    arg_lasso_mousebutton fourth_button_args = ButtonName "fourth"))
    by (left; reflexivity).
  repeat (split; [assumption|]).
  exact (unknown_button_raises demo_toolkit fourth_button_args "fourth"
           H1 H2 H3 H4 H5 H6 H7).
Defined.

Lemma default_colors_run_out_witness :
  arg_mask_colors crowded_args = None ∧
  shape (initial_mask crowded_args) = arg_img crowded_args ∧
  1 ≤ Z.of_nat (length (registry (arg_classes crowded_args))) ∧
  (∃ k, resolve_button (arg_pan_mousebutton crowded_args) = Returned k) ∧
  (∃ k, resolve_button (arg_lasso_mousebutton crowded_args) = Returned k) ∧
  (Z.of_nat (length (default_table demo_toolkit
                       (Z.of_nat (length (registry (arg_classes crowded_args))))))
     < Z.of_nat (length (registry (arg_classes crowded_args))) →
   __init__ demo_toolkit crowded_args = Raised IndexError) ∧
  (Z.of_nat (length (registry (arg_classes crowded_args)))
     ≤ Z.of_nat (length (default_table demo_toolkit
                           (Z.of_nat (length (registry (arg_classes crowded_args)))))) →
   shape_size (arg_img crowded_args) ≠ 0%nat →
   ∃ s, __init__ demo_toolkit crowded_args = Returned s ∧
        mask_colors s =
          with_alpha (arg_mask_alpha crowded_args)
            <$> take (Z.to_nat (Z.of_nat (length (registry (arg_classes crowded_args)))))
                  (default_table demo_toolkit
                     (Z.of_nat (length (registry (arg_classes crowded_args)))))).
Proof.
  assert (H1 : arg_mask_colors crowded_args = None) by reflexivity.
  assert (H2 : shape (initial_mask crowded_args) = arg_img crowded_args)
    by reflexivity.
  assert (H3 : 1 ≤ Z.of_nat (length (registry (arg_classes crowded_args))))
    by (vm_compute; intros ?; discriminate).
  assert (H4 : ∃ k, resolve_button (arg_pan_mousebutton crowded_args) = Returned k)
    by (eexists; vm_compute; reflexivity).
  assert (H5 : ∃ k, resolve_button (arg_lasso_mousebutton crowded_args) = Returned k)
    by (eexists; vm_compute; reflexivity).
  repeat (split; [assumption|]).
  exact (default_colors_run_out demo_toolkit crowded_args H1 H2 H3 H4 H5).
Defined.

Lemma fresh_widget_is_blank_witness :
  __init__ demo_toolkit (demo_args (ClassCount 2) None) = Returned demo ∧
  arg_mask (demo_args (ClassCount 2) None) = None ∧
  mask demo = np_zeros 0 (arg_img (demo_args (ClassCount 2) None)) ∧
  _overlay demo = np_zeros transparent (arg_img (demo_args (ClassCount 2) None)) ∧
  _cur_class_idx demo = 1 ∧
  (∃ first, registry (arg_classes (demo_args (ClassCount 2) None)) !! 0%nat
              = Some first ∧
            (current_class demo).1 = Returned first) ∧
  (erasing demo).1 = Returned false ∧
  (get_paths demo).1 = Returned {[ "adding"%string := []; "erasing"%string := [] ]}.
Proof.
  assert (H1 : __init__ demo_toolkit (demo_args (ClassCount 2) None) = Returned demo)
    by (vm_compute; reflexivity).
  assert (H2 : arg_mask (demo_args (ClassCount 2) None) = None) by reflexivity.
  split; [exact H1|]. split; [exact H2|].
  exact (fresh_widget_is_blank demo_toolkit _ demo H1 H2).
Defined.

Lemma name_selects_first_occurrence_witness :
  _classes demo_repeated !! 1%nat = Some (IdStr "cell") ∧
  (∀ j : nat, (j < 1)%nat → _classes demo_repeated !! j ≠ Some (IdStr "cell")) ∧
  current_class_set (PyStr "cell") demo_repeated =
    (Returned tt, set_cur_class_idx (Z.of_nat 1 + 1) demo_repeated).
Proof.
  assert (H1 : _classes demo_repeated !! 1%nat = Some (IdStr "cell"))
    by (vm_compute; reflexivity).
  assert (H2 : ∀ j : nat, (j < 1)%nat →
                 _classes demo_repeated !! j ≠ Some (IdStr "cell"))
    by (intros [|j] Hj; [vm_compute; discriminate|lia]).
  split; [exact H1|]. split; [exact H2|].
  exact (name_selects_first_occurrence demo_repeated 1 "cell" H1 H2).
Defined.

Lemma bool_is_an_index_witness :
  1 ≤ _n_classes demo ∧
  current_class_set (PyBool true) demo = (Returned tt, set_cur_class_idx 1 demo) ∧
  current_class_set (PyBool false) demo = (Raised ValueError, demo).
Proof.
  assert (H : 1 ≤ _n_classes demo) by (vm_compute; intros ?; discriminate).
  split; [exact H|]. exact (bool_is_an_index demo H).
Defined.

Lemma pix_lists_cells_row_by_row_witness :
  __init__ demo_toolkit (demo_args (ClassCount 2) None) = Returned demo ∧
  (1 < (arg_img (demo_args (ClassCount 2) None)).1)%nat ∧
  (2 < (arg_img (demo_args (ClassCount 2) None)).2)%nat ∧
  length (pix (after demo_toolkit session demo)) =
    ((arg_img (demo_args (ClassCount 2) None)).1
       * (arg_img (demo_args (ClassCount 2) None)).2)%nat ∧
  pix (after demo_toolkit session demo)
    !! (1 * (arg_img (demo_args (ClassCount 2) None)).2 + 2)%nat
    = Some (Z.of_nat 2, Z.of_nat 1).
Proof.
  assert (H1 : __init__ demo_toolkit (demo_args (ClassCount 2) None) = Returned demo)
    by (vm_compute; reflexivity).
  assert (H2 : (1 < (arg_img (demo_args (ClassCount 2) None)).1)%nat) by (simpl; lia).
  assert (H3 : (2 < (arg_img (demo_args (ClassCount 2) None)).2)%nat) by (simpl; lia).
  split; [exact H1|]. split; [exact H2|]. split; [exact H3|].
  exact (pix_lists_cells_row_by_row demo_toolkit _ demo session 1 2 H1 H2 H3).
Defined.

Lemma indices_record_gesture_witness :
  __init__ demo_toolkit seeded_args = Returned demo_seeded ∧
  seed_ok seeded_args ∧
  shape (initial_mask seeded_args) = arg_img seeded_args ∧
  seed_holds_indices seeded_args ∧ centre ≠ [] ∧
  ∃ s' ind,
    _onselect demo_toolkit centre (after demo_toolkit session demo_seeded)
      = (Returned tt, s') ∧
    indices s' = Some ind ∧
    shape ind = arg_img seeded_args ∧
    ∀ r c, (r < (arg_img seeded_args).1)%nat →
           (c < (arg_img seeded_args).2)%nat →
      cell ind r c = Some (inside demo_toolkit centre r c).
Proof.
  assert (H1 : __init__ demo_toolkit seeded_args = Returned demo_seeded)
    by (vm_compute; reflexivity).
  assert (H2 : seed_ok seeded_args) by (vm_compute; reflexivity).
  assert (H3 : shape (initial_mask seeded_args) = arg_img seeded_args)
    by reflexivity.
  assert (H4 : seed_holds_indices seeded_args).
  { intros k Hk. change (1 ≤ k ≤ 2) in Hk. apply cast_small. lia. }
  assert (H5 : centre ≠ []) by discriminate.
  split; [exact H1|]. split; [exact H2|]. split; [exact H3|].
  split; [exact H4|]. split; [exact H5|].
  exact (indices_record_gesture demo_toolkit seeded_args demo_seeded session centre
           H1 H2 H3 H4 H5).
Defined.

Lemma count_identifiers_are_zero_based_witness :
  arg_classes (demo_args (ClassCount 2) None) = ClassCount 2 ∧
  __init__ demo_toolkit (demo_args (ClassCount 2) None) = Returned demo ∧
  1 ≤ 2 ≤ 2 ∧
  ((current_class_set (PyInt 2);; current_class) demo).1 = Returned (IdInt (2 - 1)).
Proof.
  assert (H1 : arg_classes (demo_args (ClassCount 2) None) = ClassCount 2)
    by reflexivity.
  assert (H2 : __init__ demo_toolkit (demo_args (ClassCount 2) None) = Returned demo)
    by (vm_compute; reflexivity).
  assert (H3 : 1 ≤ 2 ≤ 2) by lia.
  split; [exact H1|]. split; [exact H2|]. split; [exact H3|].
  exact (count_identifiers_are_zero_based demo_toolkit _ demo 2 2 H1 H2 H3).
Defined.
